(** * bids-mriqc: the configuration-to-command-line translator

    A shallow embedding of [utils/args.py] ([get_inputs_and_args],
    [validate], [build_command]) and of the command post-processing of
    [run.py] ([generate_command]), together with the properties the
    specification states about them.

    Conventions of the embedding.
    - A Python [str] is a [string]; a character is a code point below 256.
    - A configuration value is a [str], a [bool] or an [int]; [float]
      values are outside the model.
    - A [dict] is the list of its items in insertion order, with pairwise
      distinct keys ([dict_ok]).
    - A function that mutates an object is a computation in the state and
      exception monad [M] whose state is that object. *)

From Stdlib Require Import List String Ascii Bool Arith ZArith Lia.
From Stdlib Require Import Decimal DecimalString.
Import ListNotations.

Local Open Scope string_scope.
Local Open Scope list_scope.

(** String concatenation, Python's [+] on [str]. *)
Notation "s1 +:+ s2" := (String.append s1 s2)
  (at level 60, right associativity).

(* ===================================================================== *)
(** ** Python values *)
(* ===================================================================== *)

Module Py.

(** The exceptions the modelled code can raise. *)
Inductive exn : Type :=
| TypeError
| IndexError
| KeyError
| AttributeError.

(** Configuration values as they come out of the gear's [config.json]. *)
Inductive value : Type :=
| VStr (s : string)
| VBool (b : bool)
| VInt (n : Z).

(** [type(v) == bool] *)
Definition is_bool (v : value) : bool :=
  match v with VBool _ => true | _ => false end.

(** [type(v) == str], [isinstance(v, str)] *)
Definition is_str (v : value) : bool :=
  match v with VStr _ => true | _ => false end.

(** [str(n)] for an [int]: decimal digits, a leading [-] when negative. *)
Definition str_int (n : Z) : string :=
  NilZero.string_of_int (Z.to_int n).

(** [str(v)] *)
Definition str (v : value) : string :=
  match v with
  | VStr s => s
  | VBool true => "True"
  | VBool false => "False"
  | VInt n => str_int n
  end.

(** Truth value of [v] in a condition ([if v:]). *)
Definition truthy (v : value) : bool :=
  match v with
  | VStr s => negb (String.length s =? 0)%nat
  | VBool b => b
  | VInt n => negb (n =? 0)%Z
  end.

(** [v == 0].  A [bool] is an [int] in Python: [False == 0] holds. *)
Definition eq_zero (v : value) : bool :=
  match v with
  | VStr _ => false
  | VBool b => negb b
  | VInt n => (n =? 0)%Z
  end.

(** [c.isspace()] for a code point below 256. *)
Definition isspace (c : ascii) : bool :=
  let n := nat_of_ascii c in
  ((9 <=? n)%nat && (n <=? 13)%nat) || ((28 <=? n)%nat && (n <=? 32)%nat)
  || (n =? 133)%nat || (n =? 160)%nat.

(** [s.split()]: the maximal runs of non-whitespace characters of [s],
    in order.  [word] is the run being read. *)
Fixpoint split_from (word : string) (s : string) : list string :=
  match s with
  | EmptyString =>
      match word with EmptyString => [] | _ => [word] end
  | String c rest =>
      if isspace c then
        match word with
        | EmptyString => split_from "" rest
        | _ => word :: split_from "" rest
        end
      else split_from (word +:+ String c "") rest
  end.

Definition split (s : string) : list string := split_from "" s.

(** [s.split(sep)] for a separator of one character: the stretches between
    the occurrences of [sep], empty ones included. *)
Fixpoint split_on_from (sep : ascii) (word : string) (s : string) : list string :=
  match s with
  | EmptyString => [word]
  | String c rest =>
      if Ascii.eqb c sep then word :: split_on_from sep "" rest
      else split_on_from sep (word +:+ String c "") rest
  end.

Definition split_on (sep : ascii) (s : string) : list string :=
  split_on_from sep "" s.

(** [s[:n]] *)
Definition prefix_slice (n : nat) (s : string) : string := substring 0 n s.

(** [s.startswith(p)] *)
Definition startswith (p s : string) : bool := String.prefix p s.

End Py.
Import Py.

(* ===================================================================== *)
(** ** Dictionaries *)
(* ===================================================================== *)

(** A [dict] with [str] keys, as the list of its items in insertion
    order. *)
Definition dict : Type := list (string * value).

(** [d.keys()] *)
Definition keys (d : dict) : list string := map fst d.

(** A list of items is a dictionary when no key occurs twice. *)
Definition dict_ok (d : dict) : Prop := NoDup (keys d).

(** [d[k]], [None] when [k] is not a key. *)
Fixpoint dict_get (d : dict) (k : string) : option value :=
  match d with
  | [] => None
  | (k', v) :: rest => if String.eqb k' k then Some v else dict_get rest k
  end.

(** [k in d] *)
Definition dict_mem (d : dict) (k : string) : bool :=
  match dict_get d k with Some _ => true | None => false end.

(** [d[k] = v]: an existing key keeps its place, a new key goes last. *)
Fixpoint dict_set (d : dict) (k : string) (v : value) : dict :=
  match d with
  | [] => [(k, v)]
  | (k', v') :: rest =>
      if String.eqb k' k then (k', v) :: rest
      else (k', v') :: dict_set rest k v
  end.

(** [del d[k]] for a key of [d]. *)
Fixpoint dict_del (d : dict) (k : string) : dict :=
  match d with
  | [] => []
  | (k', v') :: rest =>
      if String.eqb k' k then rest else (k', v') :: dict_del rest k
  end.

(* ===================================================================== *)
(** ** State and exceptions *)
(* ===================================================================== *)

(** How a call ends: it returns a value or raises. *)
Inductive outcome (A : Type) : Type :=
| Returns (a : A)
| Raises (e : exn).

Arguments Returns {A} a.
Arguments Raises {A} e.

(** A computation over a mutable object of type [St].  The object keeps
    the changes made before an exception was raised. *)
Definition M (St A : Type) : Type := St -> outcome A * St.

Definition ret {St A} (a : A) : M St A := fun s => (Returns a, s).

Definition bind {St A B} (m : M St A) (f : A -> M St B) : M St B :=
  fun s =>
    match m s with
    | (Returns a, s') => f a s'
    | (Raises e, s') => (Raises e, s')
    end.

Definition raise {St A} (e : exn) : M St A := fun s => (Raises e, s).

Notation "x <- m ;; k" := (bind m (fun x => k))
  (at level 61, m at next level, right associativity).
Notation "m ;; k" := (bind m (fun _ => k))
  (at level 61, right associativity).

(** [for x in xs: body(x)] *)
Fixpoint for_each {St A} (xs : list A) (body : A -> M St unit) : M St unit :=
  match xs with
  | [] => ret tt
  | x :: rest => body x ;; for_each rest body
  end.

(** [d[k]] as an expression: [KeyError] when [k] is not a key. *)
Definition getitem {St} (d : dict) (k : string) : M St value :=
  match dict_get d k with
  | Some v => ret v
  | None => raise KeyError
  end.

(** ['...' + v]: defined on [str] only. *)
Definition concat_str {St} (s : string) (v : value) : M St string :=
  match v with
  | VStr t => ret (s +:+ t)
  | _ => raise TypeError
  end.

(** *** Operations on a list object *)

(** [l.append(x)] *)
Definition append {A} (x : A) : M (list A) unit :=
  fun l => (Returns tt, l ++ [x]).

(** [l[-1] = x] *)
Definition set_last {A} (x : A) : M (list A) unit :=
  fun l =>
    match l with
    | [] => (Raises IndexError, l)
    | _ => (Returns tt, removelast l ++ [x])
    end.

(** *** Operations on a dict object *)

(** [d[k] = v] *)
Definition setitem (k : string) (v : value) : M dict unit :=
  fun d => (Returns tt, dict_set d k v).

(** [del d[k]] *)
Definition delitem (k : string) : M dict unit :=
  fun d => if dict_mem d k then (Returns tt, dict_del d k)
           else (Raises KeyError, d).

(** [d[k]] read from the object itself. *)
Definition getitem_self (k : string) : M dict value :=
  fun d => getitem d k d.

(** [k in d] read from the object itself. *)
Definition contains (k : string) : M dict bool :=
  fun d => (Returns (dict_mem d k), d).

(* ===================================================================== *)
(** ** The gear context *)
(* ===================================================================== *)

(** The part of the gear context [utils/args.py] works on:
    [context.config], [context.gear_dict['command_line']] and
    [context.gear_dict['param_list']]. *)
Record context : Type := {
  config : dict;
  command_line : list string;
  param_list : dict
}.

Definition with_command_line (ctx : context) (cmd : list string) : context :=
  {| config := config ctx; command_line := cmd; param_list := param_list ctx |}.

Definition with_param_list (ctx : context) (params : dict) : context :=
  {| config := config ctx; command_line := command_line ctx; param_list := params |}.

(* ===================================================================== *)
(** ** utils/args.py *)
(* ===================================================================== *)

(** *** get_inputs_and_args *)

(** One turn of the loop over [config.keys()]; the state is the local
    dictionary [params]. *)
Definition collect_param (config : dict) (key : string) : M dict unit :=
  if String.eqb (prefix_slice 5 key) "gear-" then ret tt
  else
    v <- getitem config key ;;
    if is_str v then
      if truthy v then setitem key v else ret tt
    else setitem key v.

Definition get_inputs_and_args (ctx : context) : outcome unit * context :=
  match for_each (keys (config ctx)) (collect_param (config ctx)) [] with
  | (Returns _, params) => (Returns tt, with_param_list ctx params)
  | (Raises e, _) => (Raises e, ctx)
  end.

(** *** validate *)

(** [if k in param_list: if param_list[k] == 0: del param_list[k]] *)
Definition drop_if_zero (k : string) : M dict unit :=
  present <- contains k ;;
  if (present : bool) then
    v <- getitem_self k ;;
    if eq_zero v then delitem k else ret tt
  else ret tt.

Definition validate_params : M dict unit :=
  drop_if_zero "start-idx" ;;
  drop_if_zero "stop-idx".

(** [param_list] is the dictionary object held by the context: the
    deletions are seen through [context.gear_dict['param_list']]. *)
Definition validate (ctx : context) : outcome unit * context :=
  let '(r, params) := validate_params (param_list ctx) in
  (r, with_param_list ctx params).

(** *** build_command *)

(** Lines 77-103: the tokens appended for [key] by the general rules.
    [param_list[key]] is read once: [key] comes from [param_list.keys()].
    The state is the list object [command]. *)
Definition emit_param (param_list : dict) (key : string) : M (list string) unit :=
  v <- getitem param_list key ;;
  if (String.length key =? 1)%nat then
    append ("-" +:+ key) ;;
    if negb (String.length (str v) =? 0)%nat then append (str v) else ret tt
  else
    if is_bool v then
      if truthy v then append ("--" +:+ key) else ret tt
    else
      if (String.length (str v) =? 0)%nat then append ("--" +:+ key)
      else
        if is_str v && (1 <? List.length (split (str v)))%nat then
          append ("--" +:+ key) ;;
          for_each (split (str v)) append
        else append ("--" +:+ key +:+ "=" +:+ str v).

(** Lines 104-108: [command[-1] = '-' + param_list[key]] for the key
    [verbose]. *)
Definition verbose_override (param_list : dict) (key : string) : M (list string) unit :=
  if String.eqb key "verbose" then
    v <- getitem param_list key ;;
    tok <- concat_str "-" v ;;
    set_last tok
  else ret tt.

(** The body of the loop over [param_list.keys()]. *)
Definition build_param (param_list : dict) (key : string) : M (list string) unit :=
  emit_param param_list key ;;
  verbose_override param_list key.

(** [command] is the list object held by the context: the function
    returns nothing, its result is [context.gear_dict['command_line']]. *)
Definition build_command (ctx : context) : outcome unit * context :=
  let '(r, command) :=
    for_each (keys (param_list ctx)) (build_param (param_list ctx))
             (command_line ctx) in
  (r, with_command_line ctx command).

(** The token sequence left in the context by [build_command], started
    from the command line [cmd] with the parameters [params]. *)
Definition built (cmd : list string) (params : dict) : outcome (list string) :=
  match build_command {| config := []; command_line := cmd; param_list := params |} with
  | (Returns _, ctx') => Returns (command_line ctx')
  | (Raises e, _) => Raises e
  end.

(** The specification's [build]: the command line starts with the program
    name, the positional arguments and the pass-through tokens. *)
Definition build (programName : string) (positionalArgs : list string)
    (parameterMap : dict) (passthroughArgs : list string) : outcome (list string) :=
  built (programName :: positionalArgs ++ passthroughArgs) parameterMap.

(* ===================================================================== *)
(** ** run.py *)
(* ===================================================================== *)

(** [BIDS_APP] *)
Definition BIDS_APP : string := "mriqc".

(** Lines 169-174, for one token [cc] of the command:
    [if cc.startswith("--verbose"): cmd[ii] = "-" + cc.split("=")[1]]. *)
Definition verbose_count (cc : string) : outcome string :=
  if startswith "--verbose" cc then
    match nth_error (split_on "=" cc) 1 with
    | Some count => Returns ("-" +:+ count)
    | None => Raises IndexError
    end
  else Returns cc.

(** The loop [for ii, cc in enumerate(cmd)] over the whole command. *)
Fixpoint rewrite_verbose (cmd : list string) : outcome (list string) :=
  match cmd with
  | [] => Returns []
  | cc :: rest =>
      match verbose_count cc with
      | Returns tok =>
          match rewrite_verbose rest with
          | Returns toks => Returns (tok :: toks)
          | Raises e => Raises e
          end
      | Raises e => Raises e
      end
  end.

Section GenerateCommand.

(** [build_command_list] comes from the gear toolkit, outside this
    repository: it is taken as given. *)
Variable build_command_list : list string -> dict -> outcome (list string).

(** One turn of the loop over [config.items()]; the state is the pair of
    [cmd] and [command_parameters]. *)
Definition route_entry (kv : string * value) : M (list string * dict) unit :=
  let '(key, val) := kv in
  if String.eqb key "bids_app_args" then
    match val with
    | VStr s => fun st => (Returns tt, (fst st ++ split_on " " s, snd st))
    | _ => raise AttributeError
    end
  else if negb (startswith "gear-" key) then
    fun st => (Returns tt, (fst st, dict_set (snd st) key val))
  else ret tt.

(** [bids_dir] stands for [str(work_dir / "bids")]. *)
Definition generate_command (config : dict)
    (bids_dir output_analysis_id_dir analysis_level : string)
    : outcome (list string) :=
  let cmd := [BIDS_APP; bids_dir; output_analysis_id_dir; analysis_level] in
  match for_each config route_entry (cmd, []) with
  | (Returns _, (cmd, command_parameters)) =>
      match build_command_list cmd command_parameters with
      | Returns cmd => rewrite_verbose cmd
      | Raises e => Raises e
      end
  | (Raises e, _) => Raises e
  end.

End GenerateCommand.

(* ===================================================================== *)
(** ** The code's results in closed form *)
(* ===================================================================== *)

(** A decision procedure for [dict_ok], for concrete dictionaries. *)
Fixpoint distinct (l : list string) : bool :=
  match l with
  | [] => true
  | x :: rest => negb (existsb (String.eqb x) rest) && distinct rest
  end.

(** The tokens of one entry under the general rules (lines 77-103), as a
    function of the key and the value. *)
Definition general_tokens (key : string) (v : value) : list string :=
  if (String.length key =? 1)%nat then
    ("-" +:+ key) :: (if negb (String.length (str v) =? 0)%nat then [str v] else [])
  else if is_bool v then
    (if truthy v then ["--" +:+ key] else [])
  else if (String.length (str v) =? 0)%nat then ["--" +:+ key]
  else if is_str v && (1 <? List.length (split (str v)))%nat then
    ("--" +:+ key) :: split (str v)
  else ["--" +:+ key +:+ "=" +:+ str v].

(** The tokens of one entry once the [verbose] override has run. *)
Definition entry_tokens (key : string) (v : value) : outcome (list string) :=
  if String.eqb key "verbose" then
    match v with
    | VStr s => Returns (removelast (general_tokens key v) ++ ["-" +:+ s])
    | _ => Raises TypeError
    end
  else Returns (general_tokens key v).

(** The tokens of a list of entries, up to the first exception. *)
Fixpoint all_tokens (d : dict) : outcome (list string) :=
  match d with
  | [] => Returns []
  | (k, v) :: rest =>
      match entry_tokens k v with
      | Returns toks =>
          match all_tokens rest with
          | Returns more => Returns (toks ++ more)
          | Raises e => Raises e
          end
      | Raises e => Raises e
      end
  end.

(** [toks] placed between the tokens built before and after them; an
    exception on either side, the earlier one first, is the result. *)
Definition between (before : outcome (list string)) (toks : list string)
    (after : outcome (list string)) : outcome (list string) :=
  match before with
  | Returns b =>
      match after with
      | Returns a => Returns (b ++ toks ++ a)
      | Raises e => Raises e
      end
  | Raises e => Raises e
  end.

(** [verbose], when present, holds a [str]. *)
Definition verbose_ok (d : dict) : bool :=
  match dict_get d "verbose" with
  | Some v => is_str v
  | None => true
  end.

(** The configuration entries that [get_inputs_and_args] passes on: the
    key does not start with "gear-" and the value is not the empty
    string. *)
Definition kept (kv : string * value) : bool :=
  negb (String.eqb (prefix_slice 5 (fst kv)) "gear-")
  && (negb (is_str (snd kv)) || truthy (snd kv)).

(** The entries that [validate] deletes: "start-idx" and "stop-idx" with a
    value equal to 0. *)
Definition dropped (kv : string * value) : bool :=
  (String.eqb (fst kv) "start-idx" || String.eqb (fst kv) "stop-idx")
  && eq_zero (snd kv).

(* ===================================================================== *)
(** ** run.py: set_performance_config *)
(* ===================================================================== *)

(** [d.get(k)] read from the object itself: [None] when [k] is not a key. *)
Definition get_self (k : string) : M dict (option value) :=
  fun d => (Returns (dict_get d k), d).

(** [v > n] for an [int] [n]: a [bool] compares as 0 or 1, a [str] does
    not compare with an [int]. *)
Definition greater {St} (v : value) (n : Z) : M St bool :=
  match v with
  | VInt m => ret (n <? m)%Z
  | VBool b => ret (n <? (if b then 1 else 0))%Z
  | VStr _ => raise TypeError
  end.

(** Lines 68-77 for "n_cpus" and lines 81-90 for "mem_gb", which have the
    same shape: [setting = config.get(key)]; when it is true and greater
    than what is available, or when it is false ([None], 0, [False], the
    empty string), [config[key] = available]. *)
Definition use_at_most (key : string) (available : Z) : M dict unit :=
  setting <- get_self key ;;
  match setting with
  | Some v =>
      if truthy v then
        too_big <- greater v available ;;
        if (too_big : bool) then setitem key (VInt available) else ret tt
      else setitem key (VInt available)
  | None => setitem key (VInt available)
  end.

(** [os_cpu_count] stands for [os.cpu_count()] and [psutil_mem_gb] for
    [int(psutil.virtual_memory().available / (1024 ** 3))], both [int]s;
    the state is the dictionary [config]. *)
Definition set_performance_config (os_cpu_count psutil_mem_gb : Z) : M dict unit :=
  use_at_most "n_cpus" os_cpu_count ;;
  use_at_most "mem_gb" psutil_mem_gb.

(* ===================================================================== *)
(** ** Vocabulary of the further properties *)
(* ===================================================================== *)


(** The number of occurrences of the character [c] in [s]. *)
Fixpoint count_char (c : ascii) (s : string) : nat :=
  match s with
  | EmptyString => 0
  | String c' rest => (if Ascii.eqb c' c then 1 else 0) + count_char c rest
  end.

(** The number a value stands for in a comparison with an [int]. *)
Definition int_of (v : value) : option Z :=
  match v with
  | VInt n => Some n
  | VBool b => Some (if b then 1 else 0)%Z
  | VStr _ => None
  end.

(** The key holds a non-empty [str]. *)
Definition text_setting (d : dict) (key : string) : bool :=
  match dict_get d key with
  | Some (VStr s) => negb (String.length s =? 0)%nat
  | _ => false
  end.

(** The configuration entries [generate_command] hands on as parameters. *)
Definition passed (kv : string * value) : bool :=
  negb (String.eqb (fst kv) "bids_app_args")
  && negb (startswith "gear-" (fst kv)).

(** A token the loop of lines 169-174 cannot rewrite: it starts with
    "--verbose" and has no "=". *)
Definition unsplittable (cc : string) : bool :=
  startswith "--verbose" cc && (count_char "=" cc =? 0)%nat.

(** What a setting becomes when at most [available] may be used: the
    value itself when it is true and not greater, [available] otherwise;
    a non-empty [str] cannot be compared. *)
Definition settled (setting : option value) (available : Z) : outcome value :=
  match setting with
  | Some v =>
      if truthy v then
        match int_of v with
        | Some n => Returns (if (available <? n)%Z then VInt available else v)
        | None => Raises TypeError
        end
      else Returns (VInt available)
  | None => Returns (VInt available)
  end.

(** The tokens of the entries named "bids_app_args" in a list of items. *)
Fixpoint pass_through_all (l : dict) : outcome (list string) :=
  match l with
  | [] => Returns []
  | (k, v) :: rest =>
      if String.eqb k "bids_app_args" then
        match v with
        | VStr s =>
            match pass_through_all rest with
            | Returns toks => Returns (split_on " " s ++ toks)
            | Raises e => Raises e
            end
        | _ => Raises AttributeError
        end
      else pass_through_all rest
  end.

(** The pass-through tokens of a configuration: the pieces of
    [config["bids_app_args"]] between single spaces. *)
Definition pass_through (config : dict) : outcome (list string) :=
  match dict_get config "bids_app_args" with
  | Some (VStr s) => Returns (split_on " " s)
  | Some _ => Raises AttributeError
  | None => Returns []
  end.

(* ===================================================================== *)
(** ** Lemmas *)
(* ===================================================================== *)

Section DictFacts.

Lemma dict_ok_cons k v d : dict_ok ((k, v) :: d) -> ~ In k (keys d) /\ dict_ok d.
Proof. unfold dict_ok; simpl; intros H; inversion H; auto. Qed.

Lemma dict_ok_app_l d1 d2 : dict_ok (d1 ++ d2) -> dict_ok d1.
Proof.
  unfold dict_ok, keys. rewrite map_app. apply NoDup_app_remove_r.
Qed.

Lemma dict_ok_app_r d1 d2 : dict_ok (d1 ++ d2) -> dict_ok d2.
Proof.
  unfold dict_ok, keys. rewrite map_app. apply NoDup_app_remove_l.
Qed.

Lemma in_keys k v (d : dict) : In (k, v) d -> In k (keys d).
Proof. intros H. unfold keys. change k with (fst (k, v)). now apply in_map. Qed.

Lemma dict_get_in d k v : dict_ok d -> In (k, v) d -> dict_get d k = Some v.
Proof.
  induction d as [|[k' v'] d IH]; simpl; intros Hok Hin; [contradiction|].
  apply dict_ok_cons in Hok as [Hfresh Hok].
  destruct Hin as [Heq | Hin].
  - inversion Heq; subst. now rewrite String.eqb_refl.
  - destruct (String.eqb k' k) eqn:E.
    + apply String.eqb_eq in E; subst. exfalso. apply Hfresh.
      eapply in_keys; eauto.
    + auto.
Qed.

Lemma dict_get_none d k : ~ In k (keys d) -> dict_get d k = None.
Proof.
  induction d as [|[k' v'] d IH]; simpl; intros H; [reflexivity|].
  destruct (String.eqb k' k) eqn:E.
  - apply String.eqb_eq in E. tauto.
  - apply IH. tauto.
Qed.

Lemma dict_get_some_in d k v : dict_get d k = Some v -> In (k, v) d.
Proof.
  induction d as [|[k' v'] d IH]; simpl; [discriminate|].
  destruct (String.eqb k' k) eqn:E.
  - apply String.eqb_eq in E. intros H; inversion H; subst. now left.
  - auto.
Qed.

Lemma distinct_NoDup l : distinct l = true -> NoDup l.
Proof.
  induction l as [|x l IH]; simpl; intros H; constructor;
    apply andb_true_iff in H as [Hx Hl]; auto.
  intros Hin. apply negb_true_iff in Hx.
  assert (existsb (String.eqb x) l = true) as C.
  { apply existsb_exists. exists x. split; [assumption | apply String.eqb_refl]. }
  congruence.
Qed.

Lemma dict_ok_distinct d : distinct (keys d) = true -> dict_ok d.
Proof. apply distinct_NoDup. Qed.

End DictFacts.

Section BuilderFacts.

Lemma for_each_append (l c : list string) :
  for_each l append c = (Returns tt, c ++ l).
Proof.
  revert c. induction l as [|x l IH]; intros c; simpl.
  - unfold ret. now rewrite app_nil_r.
  - unfold bind, append at 1. rewrite IH. now rewrite <- app_assoc.
Qed.

Section OneParameterMap.

(** The dictionary the loop reads. *)
Variable pl : dict.

Lemma emit_param_run key v c :
  dict_get pl key = Some v ->
  emit_param pl key c = (Returns tt, c ++ general_tokens key v).
Proof.
  intros Hget. unfold emit_param, general_tokens, getitem, bind.
  rewrite Hget. unfold ret at 1.
  destruct (String.length key =? 1)%nat.
  - unfold append at 1.
    destruct (negb (String.length (str v) =? 0)%nat).
    + unfold append. now rewrite <- app_assoc.
    + reflexivity.
  - destruct (is_bool v).
    + destruct (truthy v); [reflexivity | unfold ret; now rewrite app_nil_r].
    + destruct (String.length (str v) =? 0)%nat; [reflexivity|].
      destruct (is_str v && (1 <? List.length (split (str v)))%nat).
      * unfold append at 1. rewrite for_each_append. now rewrite <- app_assoc.
      * reflexivity.
Qed.

Lemma general_tokens_verbose s : general_tokens "verbose" (VStr s) <> [].
Proof.
  unfold general_tokens. simpl.
  destruct (String.length s =? 0)%nat; [discriminate|].
  destruct (1 <? List.length (split s))%nat; discriminate.
Qed.

Lemma build_param_run key v c :
  dict_get pl key = Some v ->
  build_param pl key c =
    match entry_tokens key v with
    | Returns toks => (Returns tt, c ++ toks)
    | Raises e => (Raises e, c ++ general_tokens key v)
    end.
Proof.
  intros Hget. unfold build_param, bind. rewrite (emit_param_run _ _ c Hget).
  unfold verbose_override, entry_tokens.
  destruct (String.eqb key "verbose") eqn:E; [|reflexivity].
  apply String.eqb_eq in E; subst key.
  unfold bind, getitem. rewrite Hget. unfold ret at 1.
  destruct v as [s | b | n]; try reflexivity.
  unfold concat_str, ret, set_last.
  pose proof (general_tokens_verbose s) as Hne.
  destruct (c ++ general_tokens "verbose" (VStr s)) eqn:Happ.
  - apply app_eq_nil in Happ. tauto.
  - rewrite <- Happ. rewrite removelast_app by assumption.
    now rewrite <- app_assoc.
Qed.

(** The loop over a stretch [l] of the items of [pl]. *)
Lemma for_each_build l :
  (forall k v, In (k, v) l -> dict_get pl k = Some v) ->
  forall c,
    match all_tokens l with
    | Returns toks =>
        for_each (keys l) (build_param pl) c = (Returns tt, c ++ toks)
    | Raises e => fst (for_each (keys l) (build_param pl) c) = Raises e
    end.
Proof.
  induction l as [|[k v] l IH]; intros Hl c; simpl.
  - unfold ret. now rewrite app_nil_r.
  - unfold bind. rewrite (build_param_run k v c) by (apply Hl; now left).
    destruct (entry_tokens k v) as [toks | e]; [|reflexivity].
    assert (forall k0 v0, In (k0, v0) l -> dict_get pl k0 = Some v0) as Hl'
      by (intros; apply Hl; now right).
    specialize (IH Hl' (c ++ toks)).
    destruct (all_tokens l) as [more | e].
    + rewrite IH. now rewrite <- app_assoc.
    + exact IH.
Qed.

End OneParameterMap.

(** [built] in closed form. *)
Lemma built_tokens cmd d :
  dict_ok d ->
  built cmd d =
    match all_tokens d with
    | Returns toks => Returns (cmd ++ toks)
    | Raises e => Raises e
    end.
Proof.
  intros Hok. unfold built, build_command. simpl.
  pose proof (for_each_build d d (fun k v => dict_get_in d k v Hok) cmd) as H.
  destruct (all_tokens d) as [toks | e].
  - rewrite H. reflexivity.
  - destruct (for_each (keys d) (build_param d) cmd) as [[[]|e'] c']; simpl in H;
      congruence.
Qed.

Lemma all_tokens_app d1 d2 :
  all_tokens (d1 ++ d2) =
    match all_tokens d1 with
    | Returns t1 =>
        match all_tokens d2 with
        | Returns t2 => Returns (t1 ++ t2)
        | Raises e => Raises e
        end
    | Raises e => Raises e
    end.
Proof.
  induction d1 as [|[k v] d1 IH]; simpl.
  - destruct (all_tokens d2); reflexivity.
  - destruct (entry_tokens k v) as [toks | e]; [|reflexivity].
    rewrite IH. destruct (all_tokens d1); [|reflexivity].
    destruct (all_tokens d2); [|reflexivity].
    now rewrite app_assoc.
Qed.

(** The entry [(k, v)] adds exactly its tokens, where it stands. *)
Lemma built_entry cmd pre k v post toks :
  dict_ok (pre ++ (k, v) :: post) ->
  entry_tokens k v = Returns toks ->
  built cmd (pre ++ (k, v) :: post)
  = between (built cmd pre) toks (built [] post).
Proof.
  intros Hok Htok.
  rewrite (built_tokens cmd _ Hok).
  rewrite (built_tokens cmd _ (dict_ok_app_l _ _ Hok)).
  apply dict_ok_app_r in Hok. apply dict_ok_cons in Hok as [_ Hok].
  rewrite (built_tokens [] _ Hok).
  rewrite all_tokens_app. simpl. rewrite Htok.
  unfold between.
  destruct (all_tokens pre); [|reflexivity].
  destruct (all_tokens post); [|reflexivity].
  now rewrite <- app_assoc.
Qed.

End BuilderFacts.

Section EntryTokens.

Lemma short_key_not_verbose k : String.length k = 1 -> String.eqb k "verbose" = false.
Proof.
  intros H. apply String.eqb_neq. intros ->. simpl in H. discriminate.
Qed.

Lemma split_pieces_nonempty s :
  1 < List.length (split s) -> (String.length s =? 0)%nat = false.
Proof.
  intros H. apply Nat.eqb_neq. destruct s; simpl in *; [lia | discriminate].
Qed.

Lemma entry_tokens_short k v :
  String.length k = 1 ->
  entry_tokens k v
  = Returns (("-" +:+ k)
             :: (if (String.length (str v) =? 0)%nat then [] else [str v])).
Proof.
  intros H. unfold entry_tokens, general_tokens.
  rewrite (short_key_not_verbose k H), H. simpl.
  now destruct (String.length (str v) =? 0)%nat.
Qed.

Section LongKey.

(** A key of two characters or more that is not the special one. *)
Variable k : string.
Hypothesis k_long : 2 <= String.length k.
Hypothesis k_plain : k <> "verbose".

Lemma long_key_not_short : (String.length k =? 1)%nat = false.
Proof. apply Nat.eqb_neq. lia. Qed.

Lemma not_verbose : String.eqb k "verbose" = false.
Proof. now apply String.eqb_neq. Qed.

Lemma entry_tokens_bool b :
  entry_tokens k (VBool b) = Returns (if b then ["--" +:+ k] else []).
Proof.
  unfold entry_tokens, general_tokens.
  rewrite not_verbose, long_key_not_short. reflexivity.
Qed.

Lemma entry_tokens_multi s :
  1 < List.length (split s) ->
  entry_tokens k (VStr s) = Returns (("--" +:+ k) :: split s).
Proof.
  intros Hs. unfold entry_tokens, general_tokens.
  rewrite not_verbose, long_key_not_short. simpl.
  rewrite (split_pieces_nonempty s Hs).
  apply Nat.ltb_lt in Hs. now rewrite Hs.
Qed.

Lemma entry_tokens_scalar v :
  is_bool v = false ->
  (is_str v = true -> List.length (split (str v)) <= 1) ->
  entry_tokens k v
  = Returns [if (String.length (str v) =? 0)%nat then "--" +:+ k
             else "--" +:+ k +:+ "=" +:+ str v].
Proof.
  intros Hb Hs. unfold entry_tokens, general_tokens.
  rewrite not_verbose, long_key_not_short, Hb.
  destruct (String.length (str v) =? 0)%nat; [reflexivity|].
  destruct (is_str v); [|reflexivity].
  assert ((1 <? List.length (split (str v)))%nat = false) as ->
    by (apply Nat.ltb_ge; auto).
  reflexivity.
Qed.

End LongKey.

Lemma entry_tokens_verbose s :
  List.length (split s) <= 1 ->
  entry_tokens "verbose" (VStr s) = Returns ["-" +:+ s].
Proof.
  intros Hs. unfold entry_tokens, general_tokens. simpl.
  destruct (String.length s =? 0)%nat; [reflexivity|].
  assert ((1 <? List.length (split s))%nat = false) as ->
    by (apply Nat.ltb_ge; auto).
  reflexivity.
Qed.

Lemma dict_ok_remove pre x post : dict_ok (pre ++ x :: post) -> dict_ok (pre ++ post).
Proof.
  unfold dict_ok, keys. rewrite !map_app. simpl. apply NoDup_remove_1.
Qed.

Lemma built_app cmd pre post :
  dict_ok (pre ++ post) ->
  built cmd (pre ++ post) = between (built cmd pre) [] (built [] post).
Proof.
  intros Hok.
  rewrite (built_tokens cmd _ Hok).
  rewrite (built_tokens cmd _ (dict_ok_app_l _ _ Hok)).
  rewrite (built_tokens [] _ (dict_ok_app_r _ _ Hok)).
  rewrite all_tokens_app. unfold between.
  destruct (all_tokens pre); [|reflexivity].
  destruct (all_tokens post); [|reflexivity].
  now rewrite <- app_assoc.
Qed.

End EntryTokens.

Section Totality.

Lemma verbose_ok_cons k v d :
  verbose_ok ((k, v) :: d)
  = if String.eqb k "verbose" then is_str v else verbose_ok d.
Proof. unfold verbose_ok. simpl. now destruct (String.eqb k "verbose"). Qed.

Lemma verbose_ok_absent d : ~ In "verbose" (keys d) -> verbose_ok d = true.
Proof. intros H. unfold verbose_ok. now rewrite (dict_get_none d "verbose" H). Qed.

(** The builder raises exactly when [verbose] holds something that is
    not a [str]; the exception is then [TypeError]. *)
Lemma all_tokens_outcome d :
  dict_ok d ->
  if verbose_ok d then exists toks, all_tokens d = Returns toks
  else all_tokens d = Raises TypeError.
Proof.
  induction d as [|[k v] d IH]; intros Hok.
  - simpl. now exists [].
  - apply dict_ok_cons in Hok as [Hfresh Hok]. specialize (IH Hok).
    rewrite verbose_ok_cons. simpl. unfold entry_tokens.
    destruct (String.eqb k "verbose") eqn:E.
    + apply String.eqb_eq in E; subst k.
      rewrite (verbose_ok_absent d Hfresh) in IH. destruct IH as [more Hmore].
      destruct v as [s | b | n]; simpl; try reflexivity.
      rewrite Hmore. eauto.
    + destruct (verbose_ok d).
      * destruct IH as [more ->]. eauto.
      * now rewrite IH.
Qed.

End Totality.

Section ParameterMap.

Lemma dict_set_fresh d k v : ~ In k (keys d) -> dict_set d k v = d ++ [(k, v)].
Proof.
  induction d as [|[k' v'] d IH]; simpl; intros H; [reflexivity|].
  destruct (String.eqb k' k) eqn:E.
  - apply String.eqb_eq in E. tauto.
  - rewrite IH by tauto. reflexivity.
Qed.

Lemma collect_param_run cfg key v params :
  dict_get cfg key = Some v ->
  collect_param cfg key params
  = (Returns tt, if kept (key, v) then dict_set params key v else params).
Proof.
  intros Hget. unfold collect_param, kept. simpl.
  destruct (String.eqb (prefix_slice 5 key) "gear-"); [reflexivity|].
  unfold bind, getitem. rewrite Hget. unfold ret at 1. simpl.
  destruct (is_str v); simpl; [|reflexivity].
  now destruct (truthy v).
Qed.

(** The loop over a stretch [l] of the items of the configuration. *)
Lemma for_each_collect cfg l :
  (forall k v, In (k, v) l -> dict_get cfg k = Some v) ->
  forall params,
    NoDup (keys params ++ keys l) ->
    for_each (keys l) (collect_param cfg) params
    = (Returns tt, params ++ filter kept l).
Proof.
  induction l as [|[k v] l IH]; intros Hl params Hnd; simpl.
  - unfold ret. now rewrite app_nil_r.
  - unfold bind. rewrite (collect_param_run cfg k v params) by (apply Hl; now left).
    assert (forall k0 v0, In (k0, v0) l -> dict_get cfg k0 = Some v0) as Hl'
      by (intros; apply Hl; now right).
    simpl in Hnd.
    destruct (kept (k, v)).
    + rewrite dict_set_fresh.
      * rewrite IH; auto.
        -- now rewrite <- app_assoc.
        -- unfold keys in *. rewrite map_app, <- app_assoc. exact Hnd.
      * apply NoDup_remove_2 in Hnd. intros Hin. apply Hnd.
        apply in_or_app. now left.
    + apply IH; auto. eapply NoDup_remove_1; eauto.
Qed.

Lemma get_inputs_and_args_run ctx :
  dict_ok (config ctx) ->
  get_inputs_and_args ctx
  = (Returns tt, with_param_list ctx (filter kept (config ctx))).
Proof.
  intros Hok. unfold get_inputs_and_args.
  rewrite (for_each_collect (config ctx) (config ctx)
             (fun k v => dict_get_in (config ctx) k v Hok) []).
  - reflexivity.
  - exact Hok.
Qed.

Lemma dict_ok_filter f d : dict_ok d -> dict_ok (filter f d).
Proof.
  induction d as [|[k v] d IH]; simpl; intros Hok; [assumption|].
  apply dict_ok_cons in Hok as [Hfresh Hok].
  destruct (f (k, v)); [|auto].
  unfold dict_ok. simpl. constructor; [|now apply IH].
  intros Hin. apply Hfresh. unfold keys in *.
  apply in_map_iff in Hin as [[k' v'] [Hk Hin]]. simpl in Hk; subst k'.
  apply filter_In in Hin as [Hin _]. eapply in_keys; eauto.
Qed.

(** Deleting by name: nothing to do when the name is not a key. *)
Lemma filter_absent (p : value -> bool) d name :
  dict_get d name = None ->
  filter (fun kv => negb (String.eqb (fst kv) name && p (snd kv))) d = d.
Proof.
  induction d as [|[k v] d IH]; simpl; intros H; [reflexivity|].
  destruct (String.eqb k name); [discriminate|].
  simpl. now rewrite IH.
Qed.

Lemma dict_del_filter d name v :
  dict_ok d -> dict_get d name = Some v -> eq_zero v = true ->
  dict_del d name
  = filter (fun kv => negb (String.eqb (fst kv) name && eq_zero (snd kv))) d.
Proof.
  induction d as [|[k w] d IH]; simpl; intros Hok Hget Hz; [discriminate|].
  apply dict_ok_cons in Hok as [Hfresh Hok].
  destruct (String.eqb k name) eqn:E; simpl.
  - inversion Hget; subst w. rewrite Hz. simpl.
    apply String.eqb_eq in E; subst k.
    symmetry. apply filter_absent. now apply dict_get_none.
  - now rewrite IH.
Qed.

Lemma filter_nonzero d name v :
  dict_ok d -> dict_get d name = Some v -> eq_zero v = false ->
  filter (fun kv => negb (String.eqb (fst kv) name && eq_zero (snd kv))) d = d.
Proof.
  induction d as [|[k w] d IH]; simpl; intros Hok Hget Hz; [discriminate|].
  apply dict_ok_cons in Hok as [Hfresh Hok].
  destruct (String.eqb k name) eqn:E; simpl.
  - inversion Hget; subst w. rewrite Hz. simpl.
    apply String.eqb_eq in E; subst k.
    f_equal. apply filter_absent. now apply dict_get_none.
  - now rewrite IH.
Qed.

Lemma drop_if_zero_run name d :
  dict_ok d ->
  drop_if_zero name d
  = (Returns tt,
     filter (fun kv => negb (String.eqb (fst kv) name && eq_zero (snd kv))) d).
Proof.
  intros Hok.
  unfold drop_if_zero, bind, contains, getitem_self, getitem, delitem, dict_mem.
  destruct (dict_get d name) as [v|] eqn:Hget.
  - unfold ret at 1. cbv beta. rewrite Hget. unfold ret at 1.
    destruct (eq_zero v) eqn:Hz.
    + rewrite Hget. now rewrite (dict_del_filter d name v).
    + unfold ret. now rewrite (filter_nonzero d name v).
  - unfold ret. now rewrite filter_absent.
Qed.

Lemma filter_twice {A} (f g : A -> bool) (l : list A) :
  filter g (filter f l) = filter (fun x => f x && g x) l.
Proof.
  induction l as [|x l IH]; simpl; [reflexivity|].
  destruct (f x); simpl; [|assumption].
  destruct (g x); now rewrite IH.
Qed.

Lemma validate_params_run d :
  dict_ok d ->
  validate_params d = (Returns tt, filter (fun kv => negb (dropped kv)) d).
Proof.
  intros Hok. unfold validate_params, bind.
  rewrite (drop_if_zero_run "start-idx" d Hok).
  rewrite drop_if_zero_run by now apply dict_ok_filter.
  rewrite filter_twice. f_equal. apply filter_ext.
  intros [k v]. unfold dropped. simpl.
  destruct (String.eqb k "start-idx"), (String.eqb k "stop-idx"), (eq_zero v);
    reflexivity.
Qed.

End ParameterMap.

Section VerboseRewrite.

(** Tokens that do not start with "--verbose" pass unchanged. *)
Lemma rewrite_verbose_other cmd :
  forallb (fun cc => negb (startswith "--verbose" cc)) cmd = true ->
  rewrite_verbose cmd = Returns cmd.
Proof.
  induction cmd as [|cc cmd IH]; simpl; intros H; [reflexivity|].
  apply andb_true_iff in H as [Hcc Hcmd]. apply negb_true_iff in Hcc.
  unfold verbose_count. rewrite Hcc. now rewrite IH.
Qed.

(** The count form the manifest gives, "--verbose=vv", becomes "-vv". *)
Lemma rewrite_verbose_count :
  rewrite_verbose ["mriqc"; "--verbose=vv"; "--n_cpus=4"]
  = Returns ["mriqc"; "-vv"; "--n_cpus=4"].
Proof. reflexivity. Qed.

(** A token that starts with "--verbose" and has no "=" stops the loop. *)
Lemma rewrite_verbose_bare_flag :
  rewrite_verbose ["mriqc"; "--verbose"] = Raises IndexError
  /\ rewrite_verbose ["mriqc"; "--verbose-reports"] = Raises IndexError.
Proof. split; reflexivity. Qed.

End VerboseRewrite.

(* ===================================================================== *)
(** ** Properties *)
(* ===================================================================== *)

(** C1. For the program "mriqc", the positional arguments "/bids", "/out",
    "participant" and the parameters verbose="vvv", n_cpus=4, float=true,
    modality="T1w T2w", fd_thres="" inserted in this order, the builder
    returns exactly the tokens mriqc /bids /out participant -vvv
    --n_cpus=4 --float --modality T1w T2w --fd_thres, in this order. *)
Theorem build_end_to_end :
  build "mriqc" ["/bids"; "/out"; "participant"]
        [("verbose", VStr "vvv"); ("n_cpus", VInt 4); ("float", VBool true);
         ("modality", VStr "T1w T2w"); ("fd_thres", VStr "")] []
  = Returns ["mriqc"; "/bids"; "/out"; "participant"; "-vvv"; "--n_cpus=4";
             "--float"; "--modality"; "T1w"; "T2w"; "--fd_thres"].
Proof. vm_compute. reflexivity. Qed.

(** C2 (as amended). When the parameter map holds the key "verbose" with
    a string value v that does not split on whitespace into more than one
    piece, the token the general rules appended for it ("--verbose" or
    "--verbose=v") is replaced: the entry leaves exactly the single token
    "-" followed by v in the output, between the tokens of the entries
    before it and those of the entries after it. *)
Theorem verbose_override_token cmd pre s post :
  dict_ok (pre ++ ("verbose", VStr s) :: post) ->
  List.length (split s) <= 1 ->
  built cmd (pre ++ ("verbose", VStr s) :: post)
  = between (built cmd pre) ["-" +:+ s] (built [] post).
Proof.
  intros Hok Hs. apply built_entry; [assumption|].
  now apply entry_tokens_verbose.
Qed.

Lemma verbose_override_token_witness :
  built ["mriqc"] [("n_cpus", VInt 4); ("verbose", VStr "vv"); ("float", VBool true)]
  = Returns ["mriqc"; "--n_cpus=4"; "-vv"; "--float"].
Proof.
  apply (verbose_override_token ["mriqc"] [("n_cpus", VInt 4)] "vv"
           [("float", VBool true)]).
  - apply dict_ok_distinct. reflexivity.
  - simpl. lia.
Defined.

(** C2 fails as stated: with verbose = "v vv" the general rules take the
    multi-token branch, only the last piece is overwritten, and the token
    "--verbose" stays in the output; with a boolean the override raises
    TypeError and there is no output. *)
Lemma verbose_multi_token_keeps_long_flag :
  built ["mriqc"] [("verbose", VStr "v vv")]
  = Returns ["mriqc"; "--verbose"; "v"; "-v vv"]
  /\ existsb (startswith "--verbose") ["mriqc"; "--verbose"; "v"; "-v vv"] = true
  /\ built ["mriqc"] [("verbose", VBool true)] = Raises TypeError.
Proof. repeat split; vm_compute; reflexivity. Qed.

(** C3 (as amended). The builder makes no contract check on the program
    name or on the keys: for every program name, the empty one included,
    and every parameter map, empty keys included, it returns a token
    sequence that starts with the program name, the positional arguments
    and the pass-through tokens.  The one exception it raises is TypeError,
    exactly when the map holds the key "verbose" with a value that is not
    a string. *)
Theorem build_without_contract_check
    programName positionalArgs parameterMap passthroughArgs :
  dict_ok parameterMap ->
  if verbose_ok parameterMap then
    exists toks,
      build programName positionalArgs parameterMap passthroughArgs
      = Returns (programName :: positionalArgs ++ passthroughArgs ++ toks)
  else
    build programName positionalArgs parameterMap passthroughArgs
    = Raises TypeError.
Proof.
  intros Hok. unfold build. rewrite (built_tokens _ _ Hok).
  pose proof (all_tokens_outcome parameterMap Hok) as H.
  destruct (verbose_ok parameterMap).
  - destruct H as [toks ->]. exists toks. simpl. now rewrite <- app_assoc.
  - now rewrite H.
Qed.

Lemma build_without_contract_check_witness :
  exists toks,
    build "" ["/bids"; "/out"; "participant"] [("", VStr "x"); ("n_cpus", VInt 4)] []
    = Returns ("" :: ["/bids"; "/out"; "participant"] ++ [] ++ toks).
Proof.
  apply (build_without_contract_check "" ["/bids"; "/out"; "participant"]
           [("", VStr "x"); ("n_cpus", VInt 4)] []).
  apply dict_ok_distinct. reflexivity.
Defined.

(** C3 fails as stated: an empty program name and an empty key are both
    accepted; the empty key is emitted by the long-flag rule. *)
Lemma empty_program_name_and_key_accepted :
  build "" ["/bids"; "/out"; "participant"] [("", VStr "x")] []
  = Returns [""; "/bids"; "/out"; "participant"; "--=x"].
Proof. vm_compute. reflexivity. Qed.

(** C4 (as amended). For a key k of length at least 2 other than
    "verbose": when its value is the boolean false the entry adds no token
    at all, the output being that of the map without the entry; when its
    value is the boolean true the entry adds the single token "--" followed
    by k, and no value token, between the tokens of the entries before it
    and those of the entries after it. *)
Theorem boolean_flag cmd pre k b post :
  dict_ok (pre ++ (k, VBool b) :: post) ->
  2 <= String.length k ->
  k <> "verbose" ->
  built cmd (pre ++ (k, VBool b) :: post)
  = if b then between (built cmd pre) ["--" +:+ k] (built [] post)
    else built cmd (pre ++ post).
Proof.
  intros Hok Hlen Hk.
  rewrite (built_entry cmd pre k (VBool b) post _ Hok (entry_tokens_bool k Hlen Hk b)).
  destruct b; [reflexivity|].
  symmetry. apply built_app. eapply dict_ok_remove; eauto.
Qed.

Lemma boolean_flag_witness :
  built ["mriqc"] [("n_cpus", VInt 4); ("float", VBool false); ("ica", VBool true)]
  = built ["mriqc"] [("n_cpus", VInt 4); ("ica", VBool true)]
  /\ built ["mriqc"] [("n_cpus", VInt 4); ("ica", VBool true); ("fd_thres", VStr "")]
     = Returns ["mriqc"; "--n_cpus=4"; "--ica"; "--fd_thres"].
Proof.
  split.
  - apply (boolean_flag ["mriqc"] [("n_cpus", VInt 4)] "float" false
             [("ica", VBool true)]).
    + apply dict_ok_distinct. reflexivity.
    + simpl. lia.
    + discriminate.
  - apply (boolean_flag ["mriqc"] [("n_cpus", VInt 4)] "ica" true
             [("fd_thres", VStr "")]).
    + apply dict_ok_distinct. reflexivity.
    + simpl. lia.
    + discriminate.
Defined.

(** C4 fails as stated: the key "float" holds false, and the output still
    has a token that contains "float", the flag of the key "ants-float";
    and for the key "verbose" holding true no token "--verbose" comes out,
    the override raises TypeError. *)
Lemma false_flag_name_inside_other_token :
  built ["mriqc"] [("float", VBool false); ("ants-float", VBool true)]
  = Returns ["mriqc"; "--ants-float"]
  /\ "--ants-float" = "--ants-" +:+ "float" +:+ ""
  /\ built ["mriqc"] [("verbose", VBool true)] = Raises TypeError.
Proof. repeat split; vm_compute; reflexivity. Qed.

(** C5 (as amended). For a key k of length at least 2 other than "verbose"
    whose value is a string that splits on whitespace into more than one
    piece, the entry adds the token "--" followed by k and then each piece
    as a token of its own, consecutively and in order, with no "=" form,
    between the tokens of the entries before it and those of the entries
    after it. *)
Theorem multi_value_expansion cmd pre k s post :
  dict_ok (pre ++ (k, VStr s) :: post) ->
  2 <= String.length k ->
  k <> "verbose" ->
  1 < List.length (split s) ->
  built cmd (pre ++ (k, VStr s) :: post)
  = between (built cmd pre) (("--" +:+ k) :: split s) (built [] post).
Proof.
  intros Hok Hlen Hk Hs. apply built_entry; [assumption|].
  now apply entry_tokens_multi.
Qed.

Lemma multi_value_expansion_witness :
  built ["mriqc"] [("float", VBool true); ("modality", VStr "a b c"); ("n_cpus", VInt 4)]
  = Returns ["mriqc"; "--float"; "--modality"; "a"; "b"; "c"; "--n_cpus=4"].
Proof.
  apply (multi_value_expansion ["mriqc"] [("float", VBool true)] "modality" "a b c"
           [("n_cpus", VInt 4)]).
  - apply dict_ok_distinct. reflexivity.
  - simpl. lia.
  - discriminate.
  - simpl. lia.
Defined.

(** C5 fails as stated: for the key "verbose" with the value "a b c" the
    last piece is overwritten, so "--verbose", "a", "b", "c" do not stand
    in the output. *)
Lemma verbose_multi_value_last_piece_lost :
  built ["mriqc"] [("verbose", VStr "a b c")]
  = Returns ["mriqc"; "--verbose"; "a"; "b"; "-a b c"]
  /\ existsb (String.eqb "c") ["mriqc"; "--verbose"; "a"; "b"; "-a b c"] = false.
Proof. split; vm_compute; reflexivity. Qed.

(** C6. For a key k of length exactly 1 the entry adds the token "-"
    followed by k; when the string form of the value is not empty it is
    the next token, and when it is empty "-k" is the only token.  The
    tokens stand between those of the entries before and after. *)
Theorem short_flag_pairing cmd pre k v post :
  dict_ok (pre ++ (k, v) :: post) ->
  String.length k = 1 ->
  built cmd (pre ++ (k, v) :: post)
  = between (built cmd pre)
      (("-" +:+ k) :: (if (String.length (str v) =? 0)%nat then [] else [str v]))
      (built [] post).
Proof.
  intros Hok Hlen. apply built_entry; [assumption|].
  now apply entry_tokens_short.
Qed.

Lemma short_flag_pairing_witness :
  built ["mriqc"] [("float", VBool true); ("m", VStr "T1w"); ("n_cpus", VInt 4)]
  = Returns ["mriqc"; "--float"; "-m"; "T1w"; "--n_cpus=4"]
  /\ built ["mriqc"] [("float", VBool true); ("w", VStr ""); ("n_cpus", VInt 4)]
     = Returns ["mriqc"; "--float"; "-w"; "--n_cpus=4"].
Proof.
  split.
  - apply (short_flag_pairing ["mriqc"] [("float", VBool true)] "m" (VStr "T1w")
             [("n_cpus", VInt 4)]).
    + apply dict_ok_distinct. reflexivity.
    + reflexivity.
  - apply (short_flag_pairing ["mriqc"] [("float", VBool true)] "w" (VStr "")
             [("n_cpus", VInt 4)]).
    + apply dict_ok_distinct. reflexivity.
    + reflexivity.
Defined.

(** C7 (as amended). For a key k of length at least 2 other than "verbose"
    whose value is not a boolean and is not a string that splits into more
    than one piece, the entry adds exactly one token: the bare "--" followed
    by k when the string form of the value is empty, and "--k=" followed by
    the string form otherwise. *)
Theorem long_flag_single_token cmd pre k v post :
  dict_ok (pre ++ (k, v) :: post) ->
  2 <= String.length k ->
  k <> "verbose" ->
  is_bool v = false ->
  (is_str v = true -> List.length (split (str v)) <= 1) ->
  built cmd (pre ++ (k, v) :: post)
  = between (built cmd pre)
      [if (String.length (str v) =? 0)%nat then "--" +:+ k
       else "--" +:+ k +:+ "=" +:+ str v]
      (built [] post).
Proof.
  intros Hok Hlen Hk Hb Hs. apply built_entry; [assumption|].
  now apply entry_tokens_scalar.
Qed.

Lemma long_flag_single_token_witness :
  built ["mriqc"] [("float", VBool true); ("fd_thres", VStr ""); ("m", VStr "T1w")]
  = Returns ["mriqc"; "--float"; "--fd_thres"; "-m"; "T1w"]
  /\ built ["mriqc"] [("float", VBool true); ("n_cpus", VInt 4); ("m", VStr "T1w")]
     = Returns ["mriqc"; "--float"; "--n_cpus=4"; "-m"; "T1w"].
Proof.
  split.
  - apply (long_flag_single_token ["mriqc"] [("float", VBool true)] "fd_thres"
             (VStr "") [("m", VStr "T1w")]).
    + apply dict_ok_distinct. reflexivity.
    + simpl. lia.
    + discriminate.
    + reflexivity.
    + intros _. simpl. lia.
  - apply (long_flag_single_token ["mriqc"] [("float", VBool true)] "n_cpus"
             (VInt 4) [("m", VStr "T1w")]).
    + apply dict_ok_distinct. reflexivity.
    + simpl. lia.
    + discriminate.
    + reflexivity.
    + discriminate.
Defined.

(** C7 fails as stated: for the key "verbose" with the empty string the
    bare "--verbose" is overwritten by "-". *)
Lemma verbose_presence_only_overwritten :
  built ["mriqc"] [("verbose", VStr "")] = Returns ["mriqc"; "-"].
Proof. vm_compute. reflexivity. Qed.

(** C8. The builder is deterministic and leaves the parameter map alone:
    two runs from contexts with the same command line and the same
    parameter map end the same way, returning or raising alike, with the
    same token sequence, whatever else the contexts hold; and the
    parameter map after a run is the one before it. *)
Theorem build_command_deterministic ctx1 ctx2 :
  command_line ctx1 = command_line ctx2 ->
  param_list ctx1 = param_list ctx2 ->
  fst (build_command ctx1) = fst (build_command ctx2)
  /\ command_line (snd (build_command ctx1)) = command_line (snd (build_command ctx2))
  /\ param_list (snd (build_command ctx1)) = param_list ctx1
  /\ param_list (snd (build_command ctx2)) = param_list ctx2.
Proof.
  intros Hc Hp. unfold build_command. rewrite Hc, Hp.
  destruct (for_each (keys (param_list ctx2)) (build_param (param_list ctx2))
              (command_line ctx2)) as [r command].
  simpl. auto.
Qed.

Lemma build_command_deterministic_witness :
  fst (build_command {| config := [("gear-dry-run", VBool true)];
                        command_line := ["mriqc"];
                        param_list := [("verbose", VStr "vv"); ("n_cpus", VInt 4)] |})
  = fst (build_command {| config := [];
                          command_line := ["mriqc"];
                          param_list := [("verbose", VStr "vv"); ("n_cpus", VInt 4)] |})
  /\ command_line
       (snd (build_command {| config := [("gear-dry-run", VBool true)];
                              command_line := ["mriqc"];
                              param_list := [("verbose", VStr "vv"); ("n_cpus", VInt 4)] |}))
     = ["mriqc"; "-vv"; "--n_cpus=4"].
Proof.
  destruct (build_command_deterministic
              {| config := [("gear-dry-run", VBool true)];
                 command_line := ["mriqc"];
                 param_list := [("verbose", VStr "vv"); ("n_cpus", VInt 4)] |}
              {| config := [];
                 command_line := ["mriqc"];
                 param_list := [("verbose", VStr "vv"); ("n_cpus", VInt 4)] |}
              eq_refl eq_refl) as [Hr [Hc _]].
  split; [exact Hr | reflexivity].
Defined.

(** C9. Every string value of the parameter map that get_inputs_and_args
    makes from a configuration is non-empty: the map holds, in order, the
    configuration entries whose key does not start with "gear-" and whose
    value is not the empty string.  So after validate, too, no string-valued
    entry has an empty string form, which is what the builder's
    presence-only branch tests for. *)
Theorem get_inputs_and_args_strings_nonempty ctx :
  dict_ok (config ctx) ->
  exists ctx',
    get_inputs_and_args ctx = (Returns tt, ctx')
    /\ param_list ctx' = filter kept (config ctx)
    /\ (forall k s, In (k, VStr s) (param_list ctx') -> s <> "")
    /\ (forall k s, In (k, VStr s) (param_list (snd (validate ctx'))) ->
                    (String.length (str (VStr s)) =? 0)%nat = false).
Proof.
  intros Hok. eexists. split; [now apply get_inputs_and_args_run|].
  simpl. split; [reflexivity|].
  assert (forall k s, In (k, VStr s) (filter kept (config ctx)) -> s <> "") as Hne.
  { intros k s Hin. apply filter_In in Hin as [_ Hk].
    unfold kept in Hk. simpl in Hk. apply andb_true_iff in Hk as [_ Hk].
    intros ->. discriminate. }
  split; [exact Hne|].
  intros k s Hin. unfold validate in Hin. simpl in Hin.
  rewrite validate_params_run in Hin by now apply dict_ok_filter.
  simpl in Hin. apply filter_In in Hin as [Hin _].
  apply Hne in Hin. destruct s; [contradiction | reflexivity].
Qed.

Lemma get_inputs_and_args_strings_nonempty_witness :
  exists ctx',
    get_inputs_and_args
      {| config := [("gear-log-level", VStr "INFO"); ("verbose", VStr "vv");
                    ("modality", VStr ""); ("start-idx", VInt 0);
                    ("float", VBool false)];
         command_line := ["mriqc"]; param_list := [] |}
    = (Returns tt, ctx')
    /\ param_list ctx'
       = [("verbose", VStr "vv"); ("start-idx", VInt 0); ("float", VBool false)].
Proof.
  destruct (get_inputs_and_args_strings_nonempty
              {| config := [("gear-log-level", VStr "INFO"); ("verbose", VStr "vv");
                            ("modality", VStr ""); ("start-idx", VInt 0);
                            ("float", VBool false)];
                 command_line := ["mriqc"]; param_list := [] |})
    as [ctx' [Hrun [Hparams _]]].
  - apply dict_ok_distinct. reflexivity.
  - exists ctx'. split; [exact Hrun | exact Hparams].
Defined.

(** C10. validate removes the entries "start-idx" and "stop-idx" from the
    parameter map exactly when their value equals 0 (Python's [==]) and
    leaves every other entry, key and value, where it was; the rest of the
    context is untouched, and a map with neither key is returned as it
    is. *)
Theorem validate_frame ctx :
  dict_ok (param_list ctx) ->
  exists ctx',
    validate ctx = (Returns tt, ctx')
    /\ param_list ctx' = filter (fun kv => negb (dropped kv)) (param_list ctx)
    /\ (forall k v, In (k, v) (param_list ctx') <->
                    In (k, v) (param_list ctx)
                    /\ ((k = "start-idx" \/ k = "stop-idx") -> eq_zero v = false))
    /\ config ctx' = config ctx
    /\ command_line ctx' = command_line ctx
    /\ (dict_mem (param_list ctx) "start-idx" = false ->
        dict_mem (param_list ctx) "stop-idx" = false ->
        ctx' = ctx).
Proof.
  intros Hok. unfold validate. rewrite (validate_params_run _ Hok).
  eexists. split; [reflexivity|]. simpl.
  split; [reflexivity|]. split; [|split; [reflexivity|split; [reflexivity|]]].
  - intros k v. rewrite filter_In. unfold dropped. simpl.
    split; intros [Hin H]; split; try assumption.
    + intros Hk. apply negb_true_iff in H.
      destruct Hk as [-> | ->]; simpl in H; assumption.
    + apply negb_true_iff.
      destruct (String.eqb k "start-idx") eqn:E1.
      * apply String.eqb_eq in E1. simpl. auto.
      * destruct (String.eqb k "stop-idx") eqn:E2; [|reflexivity].
        apply String.eqb_eq in E2. simpl. auto.
  - intros H1 H2. unfold dict_mem in H1, H2.
    destruct (dict_get (param_list ctx) "start-idx") eqn:G1; [discriminate|].
    destruct (dict_get (param_list ctx) "stop-idx") eqn:G2; [discriminate|].
    assert (filter (fun kv => negb (dropped kv)) (param_list ctx) = param_list ctx) as ->.
    { rewrite <- (filter_absent eq_zero _ _ G2) at 2.
      rewrite <- (filter_absent eq_zero _ _ G1) at 2.
      rewrite filter_twice. apply filter_ext. intros [k v]. unfold dropped. simpl.
      destruct (String.eqb k "start-idx"), (String.eqb k "stop-idx"), (eq_zero v);
        reflexivity. }
    destruct ctx; reflexivity.
Qed.

Lemma validate_frame_witness :
  exists ctx',
    validate {| config := []; command_line := ["mriqc"];
                param_list := [("start-idx", VInt 0); ("n_cpus", VInt 0);
                               ("stop-idx", VInt 5); ("float", VBool false)] |}
    = (Returns tt, ctx')
    /\ param_list ctx'
       = [("n_cpus", VInt 0); ("stop-idx", VInt 5); ("float", VBool false)].
Proof.
  destruct (validate_frame
              {| config := []; command_line := ["mriqc"];
                 param_list := [("start-idx", VInt 0); ("n_cpus", VInt 0);
                                ("stop-idx", VInt 5); ("float", VBool false)] |})
    as [ctx' [Hrun [Hparams _]]].
  - apply dict_ok_distinct. reflexivity.
  - exists ctx'. split; [exact Hrun | exact Hparams].
Defined.

(* ===================================================================== *)
(** ** Further properties of utils/args.py *)
(* ===================================================================== *)

Section BuilderState.

Lemma for_each_app {St A} (l1 l2 : list A) (body : A -> M St unit) s :
  for_each (l1 ++ l2) body s
  = match for_each l1 body s with
    | (Returns _, s') => for_each l2 body s'
    | (Raises e, s') => (Raises e, s')
    end.
Proof.
  revert s. induction l1 as [|x l1 IH]; intros s; simpl; [reflexivity|].
  unfold bind. destruct (body x s) as [[[]|e] s']; [apply IH | reflexivity].
Qed.

(** The loop only ever adds to the command, however it ends. *)
Lemma for_each_build_extends pl l :
  (forall k v, In (k, v) l -> dict_get pl k = Some v) ->
  forall c, exists toks,
    snd (for_each (keys l) (build_param pl) c) = c ++ toks.
Proof.
  induction l as [|[k v] l IH]; intros Hl c; simpl.
  - exists []. now rewrite app_nil_r.
  - unfold bind. rewrite (build_param_run pl k v c) by (apply Hl; now left).
    destruct (entry_tokens k v) as [toks | e].
    + destruct (IH (fun k0 v0 H => Hl k0 v0 (or_intror H)) (c ++ toks)) as [more Hmore].
      exists (toks ++ more). rewrite Hmore. now rewrite <- app_assoc.
    + now exists (general_tokens k v).
Qed.

Lemma str_int_nonempty n : (String.length (str_int n) =? 0)%nat = false.
Proof.
  unfold str_int. destruct (Z.to_int n) as [d | d]; simpl; [|reflexivity].
  unfold NilZero.string_of_uint. destruct d; reflexivity.
Qed.

(** A run that returns has produced the tokens of [all_tokens]. *)
Lemma build_command_returns ctx ctx' :
  dict_ok (param_list ctx) ->
  build_command ctx = (Returns tt, ctx') ->
  exists toks,
    all_tokens (param_list ctx) = Returns toks
    /\ ctx' = with_command_line ctx (command_line ctx ++ toks).
Proof.
  intros Hok Hrun. unfold build_command in Hrun.
  pose proof (for_each_build (param_list ctx) (param_list ctx)
                (fun k v => dict_get_in _ k v Hok) (command_line ctx)) as H.
  destruct (all_tokens (param_list ctx)) as [toks | e].
  - rewrite H in Hrun. exists toks. split; [reflexivity|]. congruence.
  - destruct (for_each (keys (param_list ctx)) (build_param (param_list ctx))
                (command_line ctx)) as [r c]. simpl in H. congruence.
Qed.


End BuilderState.

(** X1. [build_command] never removes or changes a token that is already
    in the command line: whether it returns or raises, the command line
    afterwards is the one before followed by new tokens. *)
Theorem build_command_keeps_command_line ctx :
  dict_ok (param_list ctx) ->
  exists toks,
    command_line (snd (build_command ctx)) = command_line ctx ++ toks.
Proof.
  intros Hok. unfold build_command.
  destruct (for_each_build_extends (param_list ctx) (param_list ctx)
              (fun k v => dict_get_in _ k v Hok) (command_line ctx)) as [toks H].
  exists toks.
  destruct (for_each (keys (param_list ctx)) (build_param (param_list ctx))
              (command_line ctx)) as [r c].
  exact H.
Qed.

Lemma build_command_keeps_command_line_witness :
  exists toks,
    command_line
      (snd (build_command {| config := []; command_line := ["mriqc"; "/bids"];
                             param_list := [("float", VBool true);
                                            ("verbose", VInt 2)] |}))
    = ["mriqc"; "/bids"] ++ toks.
Proof.
  apply (build_command_keeps_command_line
           {| config := []; command_line := ["mriqc"; "/bids"];
              param_list := [("float", VBool true); ("verbose", VInt 2)] |}).
  apply dict_ok_distinct. reflexivity.
Defined.

(** X2. [build_command] works on the list held by the context, so it is
    not idempotent: after a run that returned, a second run on the same
    context returns too and appends the same tokens once more. *)
Theorem build_command_again_repeats_tokens ctx ctx1 :
  dict_ok (param_list ctx) ->
  build_command ctx = (Returns tt, ctx1) ->
  exists toks,
    command_line ctx1 = command_line ctx ++ toks
    /\ build_command ctx1
       = (Returns tt, with_command_line ctx1 (command_line ctx ++ toks ++ toks)).
Proof.
  intros Hok Hrun.
  destruct (build_command_returns ctx ctx1 Hok Hrun) as [toks [Htoks ->]].
  exists toks. split; [reflexivity|].
  unfold build_command. simpl.
  pose proof (for_each_build (param_list ctx) (param_list ctx)
                (fun k v => dict_get_in _ k v Hok) (command_line ctx ++ toks)) as H.
  rewrite Htoks in H. rewrite H. unfold with_command_line. simpl.
  now rewrite <- app_assoc.
Qed.

Lemma build_command_again_repeats_tokens_witness :
  exists toks,
    ["mriqc"; "-vv"; "--n_cpus=4"] = ["mriqc"] ++ toks
    /\ build_command {| config := []; command_line := ["mriqc"; "-vv"; "--n_cpus=4"];
                        param_list := [("verbose", VStr "vv"); ("n_cpus", VInt 4)] |}
       = (Returns tt,
          with_command_line
            {| config := []; command_line := ["mriqc"; "-vv"; "--n_cpus=4"];
               param_list := [("verbose", VStr "vv"); ("n_cpus", VInt 4)] |}
            (["mriqc"] ++ toks ++ toks)).
Proof.
  apply (build_command_again_repeats_tokens
           {| config := []; command_line := ["mriqc"];
              param_list := [("verbose", VStr "vv"); ("n_cpus", VInt 4)] |}
           {| config := []; command_line := ["mriqc"; "-vv"; "--n_cpus=4"];
              param_list := [("verbose", VStr "vv"); ("n_cpus", VInt 4)] |}).
  - apply dict_ok_distinct. reflexivity.
  - reflexivity.
Defined.

(** X3. The tokens follow the order of the map and do not depend on the
    command line they are appended to: for a map made of two stretches of
    entries, the result is the result for the first stretch followed by
    what the second stretch gives on an empty command line, the earlier
    exception first. *)
Theorem build_in_map_order cmd d1 d2 :
  dict_ok (d1 ++ d2) ->
  built cmd (d1 ++ d2) = between (built cmd d1) [] (built [] d2).
Proof.
  intros Hok.
  rewrite (built_tokens cmd _ Hok).
  rewrite (built_tokens cmd _ (dict_ok_app_l _ _ Hok)).
  rewrite (built_tokens [] _ (dict_ok_app_r _ _ Hok)).
  rewrite all_tokens_app. unfold between.
  destruct (all_tokens d1) as [t1 | e]; [|reflexivity].
  destruct (all_tokens d2) as [t2 | e]; [|reflexivity].
  now rewrite <- app_assoc.
Qed.

Lemma build_in_map_order_witness :
  built ["mriqc"] ([("float", VBool true); ("m", VStr "T1w")] ++ [("n_cpus", VInt 4)])
  = Returns (["mriqc"; "--float"; "-m"; "T1w"] ++ [] ++ ["--n_cpus=4"]).
Proof.
  apply (build_in_map_order ["mriqc"] [("float", VBool true); ("m", VStr "T1w")]
           [("n_cpus", VInt 4)]).
  apply dict_ok_distinct. reflexivity.
Defined.

(** X4. Boolean suppression is for long keys only: a key of one character
    with a boolean value always gives its flag followed by the token
    "True" or "False". *)
Theorem short_boolean_flag_keeps_value cmd pre k b post :
  dict_ok (pre ++ (k, VBool b) :: post) ->
  String.length k = 1 ->
  built cmd (pre ++ (k, VBool b) :: post)
  = between (built cmd pre)
      ["-" +:+ k; if b then "True" else "False"]
      (built [] post).
Proof.
  intros Hok Hlen. apply built_entry; [assumption|].
  rewrite (entry_tokens_short k (VBool b) Hlen). now destruct b.
Qed.

Lemma short_boolean_flag_keeps_value_witness :
  built ["mriqc"] [("n_cpus", VInt 4); ("f", VBool false)]
  = Returns ["mriqc"; "--n_cpus=4"; "-f"; "False"].
Proof.
  apply (short_boolean_flag_keeps_value ["mriqc"] [("n_cpus", VInt 4)] "f" false []).
  - apply dict_ok_distinct. reflexivity.
  - reflexivity.
Defined.

(** X5. An integer value of a long key other than "verbose" is never a
    bare flag: whatever the integer, 0 included, the entry gives the single
    token "--k=" followed by the decimal digits. *)
Theorem integer_value_key_equals cmd pre k n post :
  dict_ok (pre ++ (k, VInt n) :: post) ->
  2 <= String.length k ->
  k <> "verbose" ->
  built cmd (pre ++ (k, VInt n) :: post)
  = between (built cmd pre) ["--" +:+ k +:+ "=" +:+ str_int n] (built [] post).
Proof.
  intros Hok Hlen Hk. apply built_entry; [assumption|].
  rewrite (entry_tokens_scalar k Hlen Hk (VInt n) eq_refl) by discriminate.
  simpl. now rewrite str_int_nonempty.
Qed.

Lemma integer_value_key_equals_witness :
  built ["mriqc"] [("float", VBool true); ("start-idx", VInt 0)]
  = Returns ["mriqc"; "--float"; "--start-idx=0"].
Proof.
  apply (integer_value_key_equals ["mriqc"] [("float", VBool true)] "start-idx" 0 []).
  - apply dict_ok_distinct. reflexivity.
  - simpl. lia.
  - discriminate.
Defined.



Section ErrorState.

Lemma keys_app (d1 d2 : dict) : keys (d1 ++ d2) = keys d1 ++ keys d2.
Proof. apply map_app. Qed.

Lemma general_tokens_verbose_other v :
  is_str v = false ->
  general_tokens "verbose" v
  = match v with
    | VBool true => ["--verbose"]
    | VInt n => ["--verbose=" +:+ str_int n]
    | _ => []
    end.
Proof.
  destruct v as [s | [|] | n]; intros H; try discriminate; try reflexivity.
  unfold general_tokens. simpl. now rewrite str_int_nonempty.
Qed.

Lemma all_tokens_without_verbose d :
  dict_ok d -> ~ In "verbose" (keys d) -> exists toks, all_tokens d = Returns toks.
Proof.
  intros Hok Habs. pose proof (all_tokens_outcome d Hok) as H.
  now rewrite (verbose_ok_absent d Habs) in H.
Qed.

End ErrorState.

(** X7. When "verbose" holds a value that is not a string, [build_command]
    raises TypeError only after it has appended the tokens of the entries
    before "verbose" and the token of the general rules for "verbose"
    itself ("--verbose" for true, nothing for false, "--verbose=n" for an
    integer); the entries after it are not looked at.  The command line of
    the context is left in that state. *)
Theorem verbose_type_error_leaves_tokens cfg cmd pre v post :
  dict_ok (pre ++ ("verbose", v) :: post) ->
  is_str v = false ->
  exists before,
    built cmd pre = Returns before
    /\ build_command {| config := cfg; command_line := cmd;
                        param_list := pre ++ ("verbose", v) :: post |}
       = (Raises TypeError,
          {| config := cfg;
             command_line :=
               before ++ match v with
                         | VBool true => ["--verbose"]
                         | VInt n => ["--verbose=" +:+ str_int n]
                         | _ => []
                         end;
             param_list := pre ++ ("verbose", v) :: post |}).
Proof.
  intros Hok Hv.
  assert (dict_ok pre) as Hpre by (eapply dict_ok_app_l; eauto).
  assert (~ In "verbose" (keys pre)) as Habs.
  { unfold dict_ok in Hok. rewrite keys_app in Hok. simpl in Hok.
    apply NoDup_remove_2 in Hok. intros Hin. apply Hok. apply in_or_app. now left. }
  destruct (all_tokens_without_verbose pre Hpre Habs) as [toks Htoks].
  exists (cmd ++ toks). split.
  - rewrite (built_tokens cmd pre Hpre). now rewrite Htoks.
  - unfold build_command. cbn [command_line param_list].
    rewrite keys_app. cbn [keys map fst]. rewrite for_each_app.
    set (d := pre ++ ("verbose", v) :: post) in *.
    fold (keys pre). fold (keys post).
    pose proof (for_each_build d pre) as Hloop.
    rewrite Htoks in Hloop. rewrite Hloop.
    + simpl. unfold bind.
      rewrite (build_param_run d "verbose" v (cmd ++ toks)).
      * unfold entry_tokens. simpl.
        rewrite (general_tokens_verbose_other v Hv).
        destruct v as [s | b | n]; [discriminate | reflexivity | reflexivity].
      * apply dict_get_in; [assumption|]. apply in_or_app. right. now left.
    + intros k w Hin. apply dict_get_in; [assumption|]. apply in_or_app. now left.
Qed.

Lemma verbose_type_error_leaves_tokens_witness :
  exists before,
    built ["mriqc"] [("float", VBool true)] = Returns before
    /\ build_command {| config := []; command_line := ["mriqc"];
                        param_list := [("float", VBool true)]
                                      ++ ("verbose", VInt 2) :: [("n_cpus", VInt 4)] |}
       = (Raises TypeError,
          {| config := [];
             command_line := before ++ ["--verbose=" +:+ str_int 2];
             param_list := [("float", VBool true)]
                           ++ ("verbose", VInt 2) :: [("n_cpus", VInt 4)] |}).
Proof.
  apply (verbose_type_error_leaves_tokens [] ["mriqc"] [("float", VBool true)]
           (VInt 2) [("n_cpus", VInt 4)]).
  - apply dict_ok_distinct. reflexivity.
  - reflexivity.
Defined.

(** X8. [validate] is idempotent: a second call on the context the first
    call left returns with that context unchanged. *)
Theorem validate_idempotent ctx :
  dict_ok (param_list ctx) ->
  validate (snd (validate ctx)) = (Returns tt, snd (validate ctx)).
Proof.
  intros Hok. unfold validate at 2 3. rewrite (validate_params_run _ Hok).
  simpl. unfold validate. simpl.
  rewrite validate_params_run by now apply dict_ok_filter.
  rewrite filter_twice. unfold with_param_list. simpl.
  do 2 f_equal. apply filter_ext. intros kv. now destruct (negb (dropped kv)).
Qed.

Lemma validate_idempotent_witness :
  validate (snd (validate {| config := []; command_line := ["mriqc"];
                             param_list := [("start-idx", VInt 0);
                                            ("stop-idx", VInt 7)] |}))
  = (Returns tt,
     {| config := []; command_line := ["mriqc"];
        param_list := [("stop-idx", VInt 7)] |}).
Proof.
  apply (validate_idempotent
           {| config := []; command_line := ["mriqc"];
              param_list := [("start-idx", VInt 0); ("stop-idx", VInt 7)] |}).
  apply dict_ok_distinct. reflexivity.
Defined.

(* ===================================================================== *)
(** ** Further properties of run.py: set_performance_config *)
(* ===================================================================== *)

Section DictUpdates.

Variable d : dict.
Variable k : string.

Lemma dict_get_set_same v : dict_get (dict_set d k v) k = Some v.
Proof.
  induction d as [|[k' v'] d' IH]; simpl.
  - now rewrite String.eqb_refl.
  - destruct (String.eqb k' k) eqn:E; simpl; now rewrite E.
Qed.

Lemma dict_get_set_other k' v : k' <> k -> dict_get (dict_set d k v) k' = dict_get d k'.
Proof.
  intros Hne. induction d as [|[k0 v0] d' IH]; simpl.
  - apply String.eqb_neq in Hne. rewrite String.eqb_sym. now rewrite Hne.
  - destruct (String.eqb k0 k) eqn:E; simpl.
    + apply String.eqb_eq in E; subst k0.
      assert (String.eqb k k' = false) as -> by (apply String.eqb_neq; congruence).
      reflexivity.
    + now rewrite IH.
Qed.

Lemma dict_set_same_value v : dict_get d k = Some v -> dict_set d k v = d.
Proof.
  induction d as [|[k' v'] d' IH]; simpl; [discriminate|].
  destruct (String.eqb k' k) eqn:E.
  - intros [= ->]. reflexivity.
  - intros H. now rewrite IH.
Qed.

Lemma dict_get_none_absent : dict_get d k = None -> ~ In k (keys d).
Proof.
  induction d as [|[k' v'] d' IH]; simpl; [tauto|].
  destruct (String.eqb k' k) eqn:E; [discriminate|].
  apply String.eqb_neq in E. intros H [Heq | Hin]; [congruence | now apply IH].
Qed.

Lemma dict_set_appends v : dict_get d k = None -> dict_set d k v = d ++ [(k, v)].
Proof. intros H. apply dict_set_fresh. now apply dict_get_none_absent. Qed.

Lemma keys_dict_set v : exists extra, keys (dict_set d k v) = keys d ++ extra.
Proof.
  induction d as [|[k' v'] d' [extra IH]]; simpl.
  - now exists [k].
  - destruct (String.eqb k' k); simpl.
    + exists []. now rewrite app_nil_r.
    + exists extra. now rewrite IH.
Qed.

End DictUpdates.

Section Settings.

Lemma use_at_most_run key available d :
  use_at_most key available d
  = match settled (dict_get d key) available with
    | Returns v => (Returns tt, dict_set d key v)
    | Raises e => (Raises e, d)
    end.
Proof.
  unfold use_at_most, settled, bind, get_self.
  destruct (dict_get d key) as [v|] eqn:Hget; [|reflexivity].
  destruct (truthy v); [|reflexivity].
  destruct v as [s | b | n]; simpl; [reflexivity| |].
  - destruct (available <? (if b then 1 else 0))%Z; [reflexivity|].
    unfold ret. now rewrite (dict_set_same_value d key _ Hget).
  - destruct (available <? n)%Z; [reflexivity|].
    unfold ret. now rewrite (dict_set_same_value d key _ Hget).
Qed.

Lemma set_performance_config_run cpu mem d :
  set_performance_config cpu mem d
  = match settled (dict_get d "n_cpus") cpu with
    | Returns vc =>
        match settled (dict_get d "mem_gb") mem with
        | Returns vm =>
            (Returns tt, dict_set (dict_set d "n_cpus" vc) "mem_gb" vm)
        | Raises e => (Raises e, dict_set d "n_cpus" vc)
        end
    | Raises e => (Raises e, d)
    end.
Proof.
  unfold set_performance_config, bind. rewrite use_at_most_run.
  destruct (settled (dict_get d "n_cpus") cpu) as [vc | e]; [|reflexivity].
  rewrite use_at_most_run.
  now rewrite (dict_get_set_other d "n_cpus" "mem_gb" vc) by discriminate.
Qed.

Lemma settled_bound setting available v :
  settled setting available = Returns v ->
  exists n, int_of v = Some n /\ (n <= available)%Z.
Proof.
  unfold settled. destruct setting as [w|].
  - destruct (truthy w).
    + destruct (int_of w) as [n|] eqn:Hn; [|discriminate].
      destruct (available <? n)%Z eqn:Hlt; intros [= <-].
      * exists available. simpl. split; [reflexivity | lia].
      * exists n. split; [assumption|]. apply Z.ltb_ge in Hlt. lia.
    + intros [= <-]. exists available. simpl. split; [reflexivity | lia].
  - intros [= <-]. exists available. simpl. split; [reflexivity | lia].
Qed.

Lemma settled_available available :
  settled (Some (VInt available)) available = Returns (VInt available).
Proof.
  unfold settled. simpl. rewrite Z.ltb_irrefl.
  now destruct (negb (available =? 0)%Z).
Qed.

Lemma settled_again setting available v :
  settled setting available = Returns v ->
  settled (Some v) available = Returns v.
Proof.
  unfold settled at 1. destruct setting as [w|].
  - destruct (truthy w) eqn:Hw.
    + destruct (int_of w) as [n|] eqn:Hn; [|discriminate].
      destruct (available <? n)%Z eqn:Hlt; intros [= <-].
      * apply settled_available.
      * unfold settled. now rewrite Hw, Hn, Hlt.
    + intros [= <-]. apply settled_available.
  - intros [= <-]. apply settled_available.
Qed.

Lemma settled_int n available :
  settled (Some (VInt n)) available
  = Returns (VInt (if (n =? 0)%Z then available else Z.min n available)).
Proof.
  unfold settled. simpl. destruct (n =? 0)%Z eqn:E0; simpl; [reflexivity|].
  destruct (available <? n)%Z eqn:Hlt.
  - apply Z.ltb_lt in Hlt. now rewrite Z.min_r by lia.
  - apply Z.ltb_ge in Hlt. now rewrite Z.min_l by lia.
Qed.

Lemma settled_text d key available :
  match settled (dict_get d key) available with
  | Returns _ => text_setting d key = false
  | Raises e => e = TypeError /\ text_setting d key = true
  end.
Proof.
  unfold settled, text_setting.
  destruct (dict_get d key) as [[s | b | n]|]; simpl; try reflexivity.
  - destruct (negb (String.length s =? 0)%nat); [split|]; reflexivity.
  - destruct b; reflexivity.
  - destruct (negb (n =? 0)%Z); reflexivity.
Qed.

End Settings.

(** X9. With integer settings, [set_performance_config] returns and
    leaves, for "n_cpus" and for "mem_gb" alike, what is available when
    the setting is 0, and otherwise the smaller of the setting and what is
    available (a negative setting is kept as it is). *)
Theorem set_performance_config_integers os_cpu_count psutil_mem_gb config n m :
  dict_get config "n_cpus" = Some (VInt n) ->
  dict_get config "mem_gb" = Some (VInt m) ->
  exists config',
    set_performance_config os_cpu_count psutil_mem_gb config = (Returns tt, config')
    /\ dict_get config' "n_cpus"
       = Some (VInt (if (n =? 0)%Z then os_cpu_count else Z.min n os_cpu_count))
    /\ dict_get config' "mem_gb"
       = Some (VInt (if (m =? 0)%Z then psutil_mem_gb else Z.min m psutil_mem_gb)).
Proof.
  intros Hn Hm. rewrite set_performance_config_run, Hn, Hm, !settled_int.
  eexists. split; [reflexivity|]. split.
  - rewrite dict_get_set_other by discriminate. apply dict_get_set_same.
  - apply dict_get_set_same.
Qed.

Lemma set_performance_config_integers_witness :
  exists config',
    set_performance_config 8 16
      [("n_cpus", VInt 12); ("verbose", VStr "vv"); ("mem_gb", VInt 0)]
    = (Returns tt, config')
    /\ dict_get config' "n_cpus" = Some (VInt 8)
    /\ dict_get config' "mem_gb" = Some (VInt 16).
Proof.
  apply (set_performance_config_integers 8 16
           [("n_cpus", VInt 12); ("verbose", VStr "vv"); ("mem_gb", VInt 0)] 12 0);
    reflexivity.
Defined.

(** X10. With neither "n_cpus" nor "mem_gb" in the configuration,
    [set_performance_config] adds both with what is available, as the last
    two entries, "n_cpus" before "mem_gb". *)
Theorem set_performance_config_defaults os_cpu_count psutil_mem_gb config :
  dict_get config "n_cpus" = None ->
  dict_get config "mem_gb" = None ->
  set_performance_config os_cpu_count psutil_mem_gb config
  = (Returns tt,
     config ++ [("n_cpus", VInt os_cpu_count); ("mem_gb", VInt psutil_mem_gb)]).
Proof.
  intros Hn Hm. rewrite set_performance_config_run, Hn, Hm. simpl.
  rewrite (dict_set_appends config "n_cpus" _ Hn).
  rewrite dict_set_appends.
  - now rewrite <- app_assoc.
  - rewrite <- (dict_set_appends config "n_cpus" _ Hn).
    now rewrite dict_get_set_other by discriminate.
Qed.

Lemma set_performance_config_defaults_witness :
  set_performance_config 8 16 [("gear-log-level", VStr "INFO"); ("verbose", VStr "vv")]
  = (Returns tt,
     [("gear-log-level", VStr "INFO"); ("verbose", VStr "vv")]
     ++ [("n_cpus", VInt 8); ("mem_gb", VInt 16)]).
Proof.
  apply (set_performance_config_defaults 8 16
           [("gear-log-level", VStr "INFO"); ("verbose", VStr "vv")]);
    reflexivity.
Defined.

(** X11. Whenever [set_performance_config] returns, the configuration
    holds "n_cpus" and "mem_gb", both numbers, and neither is greater than
    what is available. *)
Theorem set_performance_config_within_limits os_cpu_count psutil_mem_gb config config' :
  set_performance_config os_cpu_count psutil_mem_gb config = (Returns tt, config') ->
  exists vc vm n m,
    dict_get config' "n_cpus" = Some vc /\ int_of vc = Some n
    /\ (n <= os_cpu_count)%Z
    /\ dict_get config' "mem_gb" = Some vm /\ int_of vm = Some m
    /\ (m <= psutil_mem_gb)%Z.
Proof.
  rewrite set_performance_config_run.
  destruct (settled (dict_get config "n_cpus") os_cpu_count) as [vc | e] eqn:Hc;
    [|discriminate].
  destruct (settled (dict_get config "mem_gb") psutil_mem_gb) as [vm | e] eqn:Hm;
    [|discriminate].
  intros [= <-].
  destruct (settled_bound _ _ _ Hc) as [n [Hn Hle]].
  destruct (settled_bound _ _ _ Hm) as [m [Hm' Hle']].
  exists vc, vm, n, m. repeat split; try assumption.
  - rewrite dict_get_set_other by discriminate. apply dict_get_set_same.
  - apply dict_get_set_same.
Qed.

Lemma set_performance_config_within_limits_witness :
  exists vc vm n m,
    dict_get [("mem_gb", VInt 64); ("n_cpus", VInt 8)] "n_cpus" = Some vc
    /\ int_of vc = Some n /\ (n <= 8)%Z
    /\ dict_get [("mem_gb", VInt 64); ("n_cpus", VInt 8)] "mem_gb" = Some vm
    /\ int_of vm = Some m /\ (m <= 64)%Z.
Proof.
  apply (set_performance_config_within_limits 8 64
           [("mem_gb", VInt 100); ("n_cpus", VBool false)]
           [("mem_gb", VInt 64); ("n_cpus", VInt 8)]).
  reflexivity.
Defined.

(** X12. [set_performance_config] touches "n_cpus" and "mem_gb" only:
    however it ends, every other key holds what it held, and the keys the
    configuration had keep their order, new keys coming after them. *)
Theorem set_performance_config_frame os_cpu_count psutil_mem_gb config :
  (forall k, k <> "n_cpus" -> k <> "mem_gb" ->
     dict_get (snd (set_performance_config os_cpu_count psutil_mem_gb config)) k
     = dict_get config k)
  /\ exists extra,
       keys (snd (set_performance_config os_cpu_count psutil_mem_gb config))
       = keys config ++ extra.
Proof.
  rewrite set_performance_config_run.
  destruct (settled (dict_get config "n_cpus") os_cpu_count) as [vc | e].
  - destruct (keys_dict_set config "n_cpus" vc) as [x1 H1].
    destruct (settled (dict_get config "mem_gb") psutil_mem_gb) as [vm | e]; simpl.
    + split.
      * intros k Hc Hm. now rewrite !dict_get_set_other by assumption.
      * destruct (keys_dict_set (dict_set config "n_cpus" vc) "mem_gb" vm) as [x2 H2].
        exists (x1 ++ x2). now rewrite H2, H1, app_assoc.
    + split.
      * intros k Hc Hm. now rewrite dict_get_set_other by assumption.
      * now exists x1.
  - simpl. split; [reflexivity|]. exists []. now rewrite app_nil_r.
Qed.

(** X13. [set_performance_config] is idempotent on one machine: run again
    with the same available numbers on the configuration it left, it
    returns and changes nothing. *)
Theorem set_performance_config_idempotent os_cpu_count psutil_mem_gb config config' :
  set_performance_config os_cpu_count psutil_mem_gb config = (Returns tt, config') ->
  set_performance_config os_cpu_count psutil_mem_gb config' = (Returns tt, config').
Proof.
  rewrite (set_performance_config_run _ _ config).
  destruct (settled (dict_get config "n_cpus") os_cpu_count) as [vc | e] eqn:Hc;
    [|discriminate].
  destruct (settled (dict_get config "mem_gb") psutil_mem_gb) as [vm | e] eqn:Hm;
    [|discriminate].
  intros [= <-]. rewrite set_performance_config_run.
  assert (dict_get (dict_set (dict_set config "n_cpus" vc) "mem_gb" vm) "n_cpus"
          = Some vc) as Gc
    by (rewrite dict_get_set_other by discriminate; apply dict_get_set_same).
  assert (dict_get (dict_set (dict_set config "n_cpus" vc) "mem_gb" vm) "mem_gb"
          = Some vm) as Gm by apply dict_get_set_same.
  rewrite Gc, Gm, (settled_again _ _ _ Hc), (settled_again _ _ _ Hm).
  rewrite (dict_set_same_value _ "n_cpus" vc Gc).
  now rewrite (dict_set_same_value _ "mem_gb" vm Gm).
Qed.

Lemma set_performance_config_idempotent_witness :
  set_performance_config 8 16 [("n_cpus", VInt 8); ("float", VBool true); ("mem_gb", VInt 16)]
  = (Returns tt, [("n_cpus", VInt 8); ("float", VBool true); ("mem_gb", VInt 16)]).
Proof.
  apply (set_performance_config_idempotent 8 16
           [("n_cpus", VInt 0); ("float", VBool true)]).
  reflexivity.
Defined.

(** X14. [set_performance_config] raises exactly when "n_cpus" or "mem_gb"
    holds a non-empty string, and what it raises is TypeError; with such
    an "n_cpus" the configuration is left as it was. *)
Theorem set_performance_config_type_error os_cpu_count psutil_mem_gb config :
  fst (set_performance_config os_cpu_count psutil_mem_gb config)
  = (if text_setting config "n_cpus" || text_setting config "mem_gb"
     then Raises TypeError else Returns tt)
  /\ (if text_setting config "n_cpus"
      then snd (set_performance_config os_cpu_count psutil_mem_gb config) = config
      else True).
Proof.
  rewrite set_performance_config_run.
  pose proof (settled_text config "n_cpus" os_cpu_count) as Hc.
  pose proof (settled_text config "mem_gb" psutil_mem_gb) as Hm.
  destruct (settled (dict_get config "n_cpus") os_cpu_count) as [vc | e].
  - rewrite Hc. simpl.
    destruct (settled (dict_get config "mem_gb") psutil_mem_gb) as [vm | e].
    + rewrite Hm. simpl. auto.
    + destruct Hm as [-> ->]. simpl. auto.
  - destruct Hc as [-> ->]. simpl. auto.
Qed.

(* ===================================================================== *)
(** ** Further properties of run.py: generate_command *)
(* ===================================================================== *)

Section Separators.

Variable sep : ascii.

Lemma append_char_assoc w c s : (w +:+ String c "") +:+ s = w +:+ String c s.
Proof. induction w as [|a w IH]; simpl; [reflexivity | now rewrite IH]. Qed.

Lemma append_empty_r w : w +:+ "" = w.
Proof. induction w as [|a w IH]; simpl; [reflexivity | now rewrite IH]. Qed.

Lemma count_char_append w s :
  count_char sep (w +:+ s) = count_char sep w + count_char sep s.
Proof.
  induction w as [|a w IH]; simpl; [reflexivity|]. rewrite IH. lia.
Qed.

Lemma split_on_from_length w s :
  List.length (split_on_from sep w s) = S (count_char sep s).
Proof.
  revert w. induction s as [|c s IH]; intros w; simpl; [reflexivity|].
  destruct (Ascii.eqb c sep); simpl; now rewrite IH.
Qed.

Lemma split_on_from_pieces w s :
  count_char sep w = 0 ->
  Forall (fun piece => count_char sep piece = 0) (split_on_from sep w s).
Proof.
  revert w. induction s as [|c s IH]; intros w Hw; simpl.
  - now repeat constructor.
  - destruct (Ascii.eqb c sep) eqn:E.
    + constructor; [assumption | now apply IH].
    + apply IH. rewrite count_char_append, Hw. simpl. now rewrite E.
Qed.

Lemma split_on_from_whole w s :
  count_char sep s = 0 -> split_on_from sep w s = [w +:+ s].
Proof.
  revert w. induction s as [|c s IH]; intros w Hs; simpl in *.
  - now rewrite append_empty_r.
  - destruct (Ascii.eqb c sep); [discriminate|].
    rewrite IH by assumption. now rewrite append_char_assoc.
Qed.

Lemma split_on_from_first w x y :
  count_char sep x = 0 ->
  split_on_from sep w (x +:+ String sep y) = (w +:+ x) :: split_on_from sep "" y.
Proof.
  revert w. induction x as [|c x IH]; intros w Hx; simpl in *.
  - rewrite Ascii.eqb_refl. now rewrite append_empty_r.
  - destruct (Ascii.eqb c sep); [discriminate|].
    rewrite IH by assumption. now rewrite append_char_assoc.
Qed.

End Separators.

Section Routing.

Lemma pass_through_all_absent l :
  ~ In "bids_app_args" (keys l) -> pass_through_all l = Returns [].
Proof.
  induction l as [|[k v] l IH]; simpl; intros H; [reflexivity|].
  destruct (String.eqb k "bids_app_args") eqn:E.
  - apply String.eqb_eq in E. tauto.
  - apply IH. tauto.
Qed.

Lemma pass_through_all_dict l :
  dict_ok l -> pass_through_all l = pass_through l.
Proof.
  unfold pass_through.
  induction l as [|[k v] l IH]; simpl; intros Hok; [reflexivity|].
  apply dict_ok_cons in Hok as [Hfresh Hok].
  destruct (String.eqb k "bids_app_args") eqn:E.
  - apply String.eqb_eq in E; subst k.
    destruct v as [s | b | n]; try reflexivity.
    rewrite (pass_through_all_absent l Hfresh). now rewrite app_nil_r.
  - now apply IH.
Qed.

(** The loop over a stretch [l] of the items of the configuration. *)
Lemma route_loop l :
  forall cmd params,
    NoDup (keys params ++ keys l) ->
    match pass_through_all l with
    | Returns toks =>
        for_each l route_entry (cmd, params)
        = (Returns tt, (cmd ++ toks, params ++ filter passed l))
    | Raises e => fst (for_each l route_entry (cmd, params)) = Raises e
    end.
Proof.
  induction l as [|[k v] l IH]; intros cmd params Hnd; simpl.
  - unfold ret. now rewrite !app_nil_r.
  - unfold bind, passed. simpl in Hnd. simpl.
    destruct (String.eqb k "bids_app_args") eqn:E; simpl.
    + destruct v as [s | b | n]; try reflexivity. simpl.
      specialize (IH (cmd ++ split_on " " s) params (NoDup_remove_1 _ _ _ Hnd)).
      destruct (pass_through_all l) as [toks | e]; [|exact IH].
      rewrite IH. now rewrite <- app_assoc.
    + destruct (startswith "gear-" k); simpl.
      * apply IH. eapply NoDup_remove_1; eauto.
      * rewrite dict_set_fresh.
        -- assert (NoDup (keys (params ++ [(k, v)]) ++ keys l)) as Hnd'
             by (rewrite keys_app, <- app_assoc; exact Hnd).
           specialize (IH cmd (params ++ [(k, v)]) Hnd').
           destruct (pass_through_all l) as [toks | e]; [|exact IH].
           rewrite IH. now rewrite <- app_assoc.
        -- apply NoDup_remove_2 in Hnd. intros Hin. apply Hnd.
           apply in_or_app. now left.
Qed.

End Routing.

(** X15. [generate_command] hands to [build_command_list] the command
    "mriqc", the three positional arguments and then the pieces of
    "bids_app_args", wherever that key stands in the configuration, with
    the parameters being the configuration entries, in order, whose key is
    neither "bids_app_args" nor starts with "gear-" (empty strings are
    kept).  Its result is the rewriting of what [build_command_list]
    returns; a "bids_app_args" that is not a string raises AttributeError
    before [build_command_list] is called. *)
Theorem generate_command_routes
    (build_command_list : list string -> dict -> outcome (list string))
    config bids_dir output_analysis_id_dir analysis_level :
  dict_ok config ->
  generate_command build_command_list config bids_dir output_analysis_id_dir
                   analysis_level
  = match pass_through config with
    | Returns toks =>
        match build_command_list
                ([BIDS_APP; bids_dir; output_analysis_id_dir; analysis_level] ++ toks)
                (filter passed config) with
        | Returns cmd => rewrite_verbose cmd
        | Raises e => Raises e
        end
    | Raises e => Raises e
    end.
Proof.
  intros Hok. unfold generate_command. cbv zeta.
  pose proof (route_loop config
                [BIDS_APP; bids_dir; output_analysis_id_dir; analysis_level] []
                Hok) as H.
  rewrite (pass_through_all_dict config Hok) in H.
  destruct (pass_through config) as [toks | e].
  - simpl app in H. unfold dict in *. rewrite H. reflexivity.
  - unfold dict in *.
    match type of H with
    | fst ?run = _ => destruct run as [[[]|e'] [c ps]]
    end; simpl in H; congruence.
Qed.

Lemma generate_command_routes_witness :
  generate_command built
    [("gear-dry-run", VBool false); ("n_cpus", VInt 4);
     ("bids_app_args", VStr "--no-sub --dsname x"); ("modality", VStr "")]
    "/work/bids" "/out/id" "participant"
  = Returns ["mriqc"; "/work/bids"; "/out/id"; "participant"; "--no-sub";
             "--dsname"; "x"; "--n_cpus=4"; "--modality"].
Proof.
  apply (generate_command_routes built
           [("gear-dry-run", VBool false); ("n_cpus", VInt 4);
            ("bids_app_args", VStr "--no-sub --dsname x"); ("modality", VStr "")]
           "/work/bids" "/out/id" "participant").
  apply dict_ok_distinct. reflexivity.
Defined.

(** X16. "bids_app_args" is cut at every single space: the entry adds one
    token more than the string has spaces, so the empty string adds one
    empty token and two spaces in a row add an empty token between them;
    no token added holds a space; the parameters are left alone. *)
Theorem bids_app_args_tokens s cmd params :
  exists toks,
    route_entry ("bids_app_args", VStr s) (cmd, params)
    = (Returns tt, (cmd ++ toks, params))
    /\ List.length toks = S (count_char " " s)
    /\ Forall (fun tok => count_char " " tok = 0) toks.
Proof.
  exists (split_on " " s). split; [reflexivity|]. split.
  - apply split_on_from_length.
  - now apply split_on_from_pieces.
Qed.

Section VerboseTokens.

Lemma rewrite_verbose_app l1 l2 :
  rewrite_verbose (l1 ++ l2)
  = match rewrite_verbose l1 with
    | Returns o1 =>
        match rewrite_verbose l2 with
        | Returns o2 => Returns (o1 ++ o2)
        | Raises e => Raises e
        end
    | Raises e => Raises e
    end.
Proof.
  induction l1 as [|cc l1 IH]; simpl.
  - now destruct (rewrite_verbose l2).
  - destruct (verbose_count cc); [|reflexivity]. rewrite IH.
    destruct (rewrite_verbose l1); [|reflexivity].
    now destruct (rewrite_verbose l2).
Qed.

Lemma verbose_count_outcome cc :
  if unsplittable cc then verbose_count cc = Raises IndexError
  else exists tok, verbose_count cc = Returns tok.
Proof.
  unfold unsplittable, verbose_count.
  destruct (startswith "--verbose" cc); simpl; [|eauto].
  pose proof (split_on_from_length "=" "" cc) as Hlen. fold (split_on "=" cc) in Hlen.
  destruct (count_char "=" cc =? 0)%nat eqn:E.
  - apply Nat.eqb_eq in E. unfold split_on.
    now rewrite (split_on_from_whole "=" "" cc E).
  - apply Nat.eqb_neq in E.
    destruct (split_on "=" cc) as [|p0 [|p1 rest]]; simpl in *; try lia. eauto.
Qed.

Lemma verbose_count_value suffix a rest :
  count_char "=" suffix = 0 ->
  count_char "=" a = 0 ->
  rest = "" \/ (exists b, rest = String "=" b) ->
  verbose_count ("--verbose" +:+ suffix +:+ "=" +:+ a +:+ rest)
  = Returns ("-" +:+ a).
Proof.
  intros Hs Ha Hrest. unfold verbose_count.
  assert (startswith "--verbose" ("--verbose" +:+ suffix +:+ "=" +:+ a +:+ rest)
          = true) as ->.
  { unfold startswith. simpl. now destruct (suffix +:+ String "=" (a +:+ rest)). }
  assert (split_on "=" ("--verbose" +:+ suffix +:+ "=" +:+ a +:+ rest)
          = ("--verbose" +:+ suffix) :: split_on_from "=" "" (a +:+ rest)) as ->.
  { unfold split_on. simpl.
    now rewrite (split_on_from_first "=" "--verbose" suffix (a +:+ rest) Hs). }
  destruct Hrest as [-> | [b ->]].
  - rewrite append_empty_r. now rewrite (split_on_from_whole "=" "" a Ha).
  - now rewrite (split_on_from_first "=" "" a b Ha).
Qed.

End VerboseTokens.

(** X17. The loop of lines 169-174 keeps the length of the command and
    every token that does not start with "--verbose": when it returns,
    such a token stands where it stood. *)
Theorem rewrite_verbose_keeps_other_tokens cmd out :
  rewrite_verbose cmd = Returns out ->
  List.length out = List.length cmd
  /\ forall i cc,
       nth_error cmd i = Some cc ->
       startswith "--verbose" cc = false ->
       nth_error out i = Some cc.
Proof.
  revert out. induction cmd as [|c cmd IH]; simpl; intros out H.
  - injection H as <-. split; [reflexivity|]. now intros [|i].
  - destruct (verbose_count c) as [tok|] eqn:Hc; [|discriminate].
    destruct (rewrite_verbose cmd) as [toks|]; [|discriminate].
    injection H as <-. destruct (IH toks eq_refl) as [Hlen Hnth].
    split; [simpl; now rewrite Hlen|].
    intros [|i] cc Hi Hcc; simpl in *.
    + injection Hi as ->. unfold verbose_count in Hc. rewrite Hcc in Hc. congruence.
    + now apply Hnth.
Qed.

Lemma rewrite_verbose_keeps_other_tokens_witness :
  List.length ["mriqc"; "-vv"; "--n_cpus=4"]
  = List.length ["mriqc"; "--verbose=vv"; "--n_cpus=4"]
  /\ nth_error ["mriqc"; "-vv"; "--n_cpus=4"] 2 = Some "--n_cpus=4".
Proof.
  destruct (rewrite_verbose_keeps_other_tokens
              ["mriqc"; "--verbose=vv"; "--n_cpus=4"]
              ["mriqc"; "-vv"; "--n_cpus=4"] eq_refl) as [Hlen Hnth].
  split; [exact Hlen|]. now apply Hnth.
Defined.

(** X18. A token that starts with "--verbose" and has an "=" becomes "-"
    followed by what stands between the first "=" and the next one, or the
    end: "--verbose=vv" becomes "-vv", the name of the flag is not looked at
    past "--verbose" (a suffix is lost), and what follows a second "=" is
    dropped.  The tokens around it are rewritten on their own. *)
Theorem rewrite_verbose_count_token l1 l2 suffix a rest :
  count_char "=" suffix = 0 ->
  count_char "=" a = 0 ->
  rest = "" \/ (exists b, rest = String "=" b) ->
  rewrite_verbose (l1 ++ ("--verbose" +:+ suffix +:+ "=" +:+ a +:+ rest) :: l2)
  = match rewrite_verbose l1 with
    | Returns o1 =>
        match rewrite_verbose l2 with
        | Returns o2 => Returns (o1 ++ ("-" +:+ a) :: o2)
        | Raises e => Raises e
        end
    | Raises e => Raises e
    end.
Proof.
  intros Hs Ha Hrest. rewrite rewrite_verbose_app.
  cbn [rewrite_verbose]. rewrite (verbose_count_value suffix a rest Hs Ha Hrest).
  destruct (rewrite_verbose l1); [|reflexivity].
  now destruct (rewrite_verbose l2).
Qed.

Lemma rewrite_verbose_count_token_witness :
  rewrite_verbose ["mriqc"; "--verbose=vv"; "--n_cpus=4"]
  = Returns ["mriqc"; "-vv"; "--n_cpus=4"]
  /\ rewrite_verbose ["mriqc"; "--verbose-reports=yes=no"]
     = Returns ["mriqc"; "-yes"].
Proof.
  split.
  - apply (rewrite_verbose_count_token ["mriqc"] ["--n_cpus=4"] "" "vv" "").
    + reflexivity.
    + reflexivity.
    + now left.
  - apply (rewrite_verbose_count_token ["mriqc"] [] "-reports" "yes" "=no").
    + reflexivity.
    + reflexivity.
    + right. now exists "no".
Defined.

(** X19. The loop of lines 169-174 raises exactly when some token of the
    command starts with "--verbose" and has no "=" (a bare "--verbose",
    "--verbose-reports"): [cc.split("=")[1]] is then out of range and the
    exception is IndexError.  Otherwise it returns. *)
Theorem rewrite_verbose_index_error cmd :
  if existsb unsplittable cmd then rewrite_verbose cmd = Raises IndexError
  else exists out, rewrite_verbose cmd = Returns out.
Proof.
  induction cmd as [|cc cmd IH]; simpl; [eauto|].
  pose proof (verbose_count_outcome cc) as Hcc.
  destruct (unsplittable cc); simpl.
  - now rewrite Hcc.
  - destruct Hcc as [tok ->].
    destruct (existsb unsplittable cmd).
    + now rewrite IH.
    + destruct IH as [out ->]. eauto.
Qed.
